(** * beezim: the ZIM-to-tar conversion pipeline (package [indexer]) and the
    bytes upload call of the bee client (package [api]).

    A shallow embedding of [indexer/indexer.go] and
    [internal/beeclient/api/bytes.go], followed by the properties of the
    pipeline that the specification states.

    Conventions.
    - A Go [string] and a Go [[]byte] are byte sequences: [string] and
      [list byte].
    - A Go [(T, error)] result is a [result T]; a Go [error] that may be [nil]
      is an [option error].
    - A Go map is a reference: the indexer's [entries] map lives in a [Store]
      and the indexer holds its location.
    - The collaborators the package calls but does not define (the gozim
      decoder, [html/template] with the embedded templates, [archive/tar],
      [os], the [tarball] helpers, the HTTP client) are environment
      parameters; none of their code is assumed. *)

From Stdlib Require Import ZArith NArith Ascii String DecimalString.
From Stdlib Require Import Strings.Byte.
From stdpp Require Import base option list gmap strings.

Local Open Scope string_scope.
Local Open Scope list_scope.
Local Open Scope stdpp_scope.

(** ** Byte strings and errors *)

Abbreviation bytes := (list byte).

(** The message of an error value made by a collaborator. *)
Definition ext_error := string.

Inductive result (A : Type) : Type :=
| Ok (a : A)
| Err (e : ext_error).
Arguments Ok {A} a.
Arguments Err {A} e.

(** Where a non-nil [error] seen by the indexer was allocated.  Go compares
    error values by identity: the value made by an [errors.New] call of this
    package is never the value a collaborator returned. *)
Inductive Origin : Type := FromZim | FromTemplate | FromTar | FromOS | FromTarball.

Inductive error : Type :=
| errors_New (msg : string)
| Foreign (o : Origin) (e : ext_error).

(** ** [path.Base] and [filepath.Base]

    Go's algorithm, on a slash-separated path: the empty path is ["."];
    trailing slashes are stripped; what follows the last slash is kept; a
    path of slashes only is ["/"]. *)

Definition is_slash (c : ascii) : bool := Ascii.eqb c "/"%char.

(** [path[0 : len(path)-1]] while the last byte is a slash, on the reversed
    byte list. *)
Fixpoint strip_slashes (rev_path : list ascii) : list ascii :=
  match rev_path with
  | c :: r => if is_slash c then strip_slashes r else rev_path
  | [] => []
  end.

(** The bytes after the last slash ([path[i+1:]]), on the reversed list. *)
Fixpoint last_element (rev_path : list ascii) : list ascii :=
  match rev_path with
  | c :: r => if is_slash c then [] else c :: last_element r
  | [] => []
  end.

Definition Base (path : string) : string :=
  if String.eqb path "" then "."
  else
    let stripped := strip_slashes (rev (list_ascii_of_string path)) in
    let elem := string_of_list_ascii (rev (last_element stripped)) in
    if String.eqb elem "" then "/" else elem.

Module path.
Definition Base := Base.
End path.

(** On the Unix targets of beezim [filepath.Base] is the same function
    (separator [/], no volume names). *)
Module filepath.
Definition Base := Base.

(** The elements between slashes, empty ones included: ["a//b"] has the
    elements ["a"], [""], ["b"].  [cur] is the element being read,
    reversed. *)
Fixpoint elements (s cur : list ascii) : list string :=
  match s with
  | [] => [string_of_list_ascii (rev cur)]
  | c :: r =>
      if is_slash c then string_of_list_ascii (rev cur) :: elements r []
      else elements r (c :: cur)
  end.

(** One element read by [Clean], [kept] being the elements kept so far, last
    one first: an empty element and ["."] are dropped; [".."] removes the
    last kept element, is dropped at the root, and is kept at the start of a
    relative path or after another [".."]. *)
Definition clean_element (rooted : bool) (kept : list string) (elem : string)
    : list string :=
  if String.eqb elem "" || String.eqb elem "." then kept
  else if String.eqb elem ".." then
    match kept with
    | last :: before => if String.eqb last ".." then elem :: kept else before
    | [] => if rooted then [] else [elem]
    end
  else elem :: kept.

(** [filepath.Clean] with separator [/]: the shortest path naming the same
    file by purely lexical processing. *)
Definition Clean (path : string) : string :=
  match list_ascii_of_string path with
  | [] => "."
  | c :: _ =>
      let rooted := is_slash c in
      let kept := foldl (clean_element rooted) [] (elements (list_ascii_of_string path) []) in
      let body := String.concat "/" (rev kept) in
      if rooted then "/" +:+ body
      else if String.eqb body "" then "." else body
  end.

(** [filepath.Join(elem...)]: the elements from the first non-empty one on,
    joined by slashes and cleaned; the empty string if all are empty. *)
Fixpoint Join (elem : list string) : string :=
  match elem with
  | [] => ""
  | e :: rest =>
      if String.eqb e "" then Join rest else Clean (String.concat "/" elem)
  end.

(** The bytes up to and including the last slash, on the reversed list. *)
Fixpoint through_last_slash (rev_path : list ascii) : list ascii :=
  match rev_path with
  | c :: r => if is_slash c then rev_path else through_last_slash r
  | [] => []
  end.

(** [filepath.Dir]: all but the last element, cleaned. *)
Definition Dir (path : string) : string :=
  Clean (string_of_list_ascii
           (rev (through_last_slash (rev (list_ascii_of_string path))))).

End filepath.

Module strconv.
(** [strconv.Itoa] on an [int] value. *)
Definition Itoa (i : Z) : string := NilZero.string_of_int (Z.to_int i).
End strconv.

(** ** The gozim decoder (external contract) *)

Module zim.

(** [EntryType] is a [uint16]: one of the three marks below or an index into
    the archive's MIME type list. *)
Definition RedirectEntry : Z := 0xffff.
Definition LinkTargetEntry : Z := 0xfffe.
Definition DeletedEntry : Z := 0xfffd.

(** What the indexer reads of a decoded entry: the exported fields
    [EntryType], [Title], [Namespace] and the results of the methods
    [FullURL()], [MimeType()], [Data()] and [RedirectIndex()]. *)
Record Article : Type := {
  EntryType : Z;
  Title : string;
  Namespace : ascii;
  FullURL : string;
  MimeType : string;
  Data : result bytes;
  RedirectIndex : result N
}.

(** [TitlePtrs] is the sequence of URL indexes that
    [ListTitlesPtrIterator] hands to its callback, in order. *)
Record ZimReader : Type := {
  ArticleCount : N;
  TitlePtrs : list N;
  ArticleAtURLIdx : N -> result Article;
  MainPage : result (option Article)
}.

End zim.

(** ** [Article], the element of the output stream *)

Record Article : Type := {
  path : string;
  data : bytes
}.

Definition Article_Path (a : Article) : string := path a.

(** [func (a Article) Data() []byte { return a.Data() }]: the body is a call of
    the method itself.  [fuel] bounds the depth of the call stack; [None] is
    a stack that ran out before any call returned. *)
Fixpoint Article_Data (fuel : nat) (a : Article) : option bytes :=
  match fuel with
  | O => None
  | S fuel' => Article_Data fuel' a
  end.

(** ** The metadata index *)

Record IndexEntry : Type := {
  Path : string;
  Metadata : gmap string string
}.

(** The heap of [map[string]IndexEntry] objects, by location. *)
Abbreviation Store := (list (gmap string IndexEntry)).

Record SwarmWikiIndexer : Type := {
  ZimPath : string;
  Z_ : zim.ZimReader;
  entries : nat
}.

(** [make(map[string]IndexEntry)]. *)
Definition make_map (st : Store) : nat * Store := (length st, st ++ [∅]).

(** [New]: [reader] is the result of [zim.NewReader(zimPath, false)]. *)
Definition New (reader : string -> result zim.ZimReader) (zimPath : string)
    (st : Store) : (error + SwarmWikiIndexer) * Store :=
  match reader zimPath with
  | Err e => (inl (Foreign FromZim e), st)
  | Ok z =>
      let '(l, st') := make_map st in
      (inr {| ZimPath := zimPath; Z_ := z; entries := l |}, st')
  end.

(** [idx.entries[entryPath] = IndexEntry{Path: entryPath, Metadata: metadata}]
    (the mutex only serialises callers). *)
Definition AddEntry (idx : SwarmWikiIndexer) (entryPath : string)
    (metadata : gmap string string) (st : Store) : Store :=
  alter (insert entryPath {| Path := entryPath; Metadata := metadata |})
        (entries idx) st.

(** [return idx.entries]: the map reference itself. *)
Definition Entries (idx : SwarmWikiIndexer) : nat := entries idx.

(** Reading a map reference in a store. *)
Definition deref (st : Store) (l : nat) : gmap string IndexEntry :=
  default ∅ (st !! l).

(** ** The producer: [ParseZIM] *)

(** What the producer goroutine does that another party can observe, in
    program order: a send on the [zimArticles] channel (unbuffered, so the
    send returns when the consumer has the entry) and a call of [AddEntry]. *)
Inductive Event : Type :=
| EvSend (a : Article)
| EvAddEntry (entryPath : string) (metadata : gmap string string).

(** How the body of the iterator's callback ends: it reaches its end, it
    executes [return], or [log.Fatalf] exits the process. *)
Inductive Flow (A : Type) : Type :=
| Next (a : A)
| Return_
| Fatalf (msg : string).
Arguments Next {A} a.
Arguments Return_ {A}.
Arguments Fatalf {A} msg.

Record Step (A : Type) : Type := {
  flow : Flow A;
  heap : Store;
  out : list Event
}.
Arguments flow {A} s.
Arguments heap {A} s.
Arguments out {A} s.

(** A statement of the callback: from a store to a flow, the new store and
    the events performed. *)
Definition Cb (A : Type) : Type := Store -> Step A.

Definition ret {A} (a : A) : Cb A :=
  fun st => {| flow := Next a; heap := st; out := [] |}.

Definition bind {A B} (m : Cb A) (k : A -> Cb B) : Cb B :=
  fun st =>
    let s := m st in
    match flow s with
    | Next a =>
        let s' := k a (heap s) in
        {| flow := flow s'; heap := heap s'; out := out s ++ out s' |}
    | Return_ => {| flow := Return_; heap := heap s; out := out s |}
    | Fatalf msg => {| flow := Fatalf msg; heap := heap s; out := out s |}
    end.

Notation "'let*' x ':=' m 'in' k" := (bind m (fun x => k))
  (at level 10, x name, m at level 100, k at level 200).

Definition return_ {A} : Cb A :=
  fun st => {| flow := Return_; heap := st; out := [] |}.

Definition fatalf {A} (msg : string) : Cb A :=
  fun st => {| flow := Fatalf msg; heap := st; out := [] |}.

(** [v, err := e; if err != nil { return }]. *)
Definition try_ {A} (r : result A) : Cb A :=
  match r with
  | Ok a => ret a
  | Err _ => return_
  end.

(** [zimArticles <- a]. *)
Definition send (a : Article) : Cb unit :=
  fun st => {| flow := Next tt; heap := st; out := [EvSend a] |}.

(** [idx.AddEntry(entryPath, metadata)]. *)
Definition call_AddEntry (idx : SwarmWikiIndexer) (entryPath : string)
    (metadata : gmap string string) : Cb unit :=
  fun st => {| flow := Next tt;
               heap := AddEntry idx entryPath metadata st;
               out := [EvAddEntry entryPath metadata] |}.

(** The [case] list of the namespace switch. *)
Definition recognized (ns : ascii) : bool :=
  (Ascii.eqb ns "-" || Ascii.eqb ns "A" || Ascii.eqb ns "I"
   || Ascii.eqb ns "M" || Ascii.eqb ns "X")%char.

Inductive Outcome : Type :=
| Completed
| Aborted (msg : string).

Record Run : Type := {
  outcome : Outcome;
  final : Store;
  trace : list Event
}.

(** [ListTitlesPtrIterator(cb)]: [cb] on every title pointer in order; a
    [log.Fatalf] inside [cb] ends the process there. *)
Fixpoint ListTitlesPtrIterator (ptrs : list N) (cb : N -> Cb unit)
    (st : Store) : Run :=
  match ptrs with
  | [] => {| outcome := Completed; final := st; trace := [] |}
  | i :: rest =>
      let s := cb i st in
      match flow s with
      | Fatalf msg => {| outcome := Aborted msg; final := heap s; trace := out s |}
      | _ =>
          let r := ListTitlesPtrIterator rest cb (heap s) in
          {| outcome := outcome r; final := final r; trace := out s ++ trace r |}
      end
  end.

(** The entries received from the channel, in order. *)
Definition stream (tr : list Event) : list Article :=
  omap (fun e => match e with EvSend a => Some a | EvAddEntry _ _ => None end) tr.

(** ** The streaming tar writer: [TarZim] *)

Module tar.

Record Header : Type := {
  Name : string;
  Mode : Z;
  Size : Z
}.

(** What a [tar.Writer] has put in its file, one item per successful call:
    [WriteHeader], [Write], [Close] (the end-of-archive trailer). *)
Inductive Item : Type :=
| Hdr (h : Header)
| Payload (b : bytes)
| Trailer.

End tar.

(** The environment of [TarZim]: whether [os.Create] and the writer's calls
    fail, given the file name or what the writer has written so far.  A
    failed call contributes no item (what reached the disk of it is not
    specified). *)
Record TarEnv : Type := {
  os_Create : string -> option ext_error;
  tar_WriteHeader : list tar.Item -> tar.Header -> option ext_error;
  tar_Write : list tar.Item -> bytes -> option ext_error;
  tar_Close : list tar.Item -> option ext_error
}.

(** The result of writing a file: the returned error and the file's items. *)
Record Written : Type := {
  werr : option error;
  items : list tar.Item
}.

(** [for file := range files { ... }], with [w] the items written so far. *)
Fixpoint TarZim_range (env : TarEnv) (files : list Article)
    (w : list tar.Item) : Written :=
  match files with
  | [] => {| werr := None; items := w |}
  | file :: rest =>
      let hdr := {| tar.Name := path file;
                    tar.Mode := 0x180 (* 0600 *);
                    tar.Size := Z.of_nat (length (data file)) |} in
      match tar_WriteHeader env w hdr with
      | Some e => {| werr := Some (Foreign FromTar e); items := w |}
      | None =>
          let w1 := w ++ [tar.Hdr hdr] in
          match tar_Write env w1 (data file) with
          | Some e => {| werr := Some (Foreign FromTar e); items := w1 |}
          | None => TarZim_range env rest (w1 ++ [tar.Payload (data file)])
          end
      end
  end.

(** [files] is the finite sequence the channel delivers before it is
    closed. *)
Definition TarZim (env : TarEnv) (tarFile : string) (files : list Article)
    : Written :=
  match os_Create env tarFile with
  | Some e => {| werr := Some (Foreign FromOS e); items := [] |}
  | None =>
      let r := TarZim_range env files [] in
      match werr r with
      | Some e => r
      | None =>
          match tar_Close env (items r) with
          | Some e => {| werr := Some (Foreign FromTar e); items := items r |}
          | None => {| werr := None; items := items r ++ [tar.Trailer] |}
          end
      end
  end.

(** ** The page builders *)

(** Modelled from the spec: [tarball.NewBufferFile(name, &buf)] of the package
    [internal/tarball], which is not among the sources; the page builders
    append their page to the output archive as the file [name] holding the
    rendered bytes. *)
Record BufferFile : Type := {
  bf_name : string;
  bf_data : bytes
}.

Definition NewBufferFile (name : string) (buf : bytes) : BufferFile :=
  {| bf_name := name; bf_data := buf |}.

(** The result of a page builder: the returned error and the calls of
    [tarball.AppendTarData] it made (target file, appended file). *)
Record Built : Type := {
  err : option error;
  append_calls : list (string * BufferFile)
}.

Section Indexer.

(** [templates.ExecuteTemplate(&buf, name, tmplData)] over the embedded
    [templates/*.html]: the bytes written to [buf] and the error.  Every
    value the builders below put in [tmplData] is a string. *)
Variable ExecuteTemplate :
  string -> gmap string string -> bytes * option ext_error.

Definition buildRedirectPage (pagePath : string) : result bytes :=
  let tmplData : gmap string string := {[ "MainURL" := pagePath ]} in
  match ExecuteTemplate "index-redirect.html" tmplData with
  | (_, Some e) => Err e
  | (buf, None) => Ok buf
  end.

(** The function literal passed to [ListTitlesPtrIterator]. *)
Definition callback (idx : SwarmWikiIndexer) (i : N) : Cb unit :=
  let* a := try_ (zim.ArticleAtURLIdx (Z_ idx) i) in
  if (zim.EntryType a =? zim.DeletedEntry)%Z then return_
  else
    let* _ :=
      if recognized (zim.Namespace a) then
        let* data :=
          if (zim.EntryType a =? zim.RedirectEntry)%Z then
            let* ridx := try_ (zim.RedirectIndex a) in
            let* ra := try_ (zim.ArticleAtURLIdx (Z_ idx) ridx) in
            match buildRedirectPage (path.Base (zim.FullURL ra)) with
            | Err e => fatalf ("error building redirect page: " +:+ e)
            | Ok page => ret page
            end
          else try_ (zim.Data a) in
        let* _ := send {| path := zim.FullURL a; data := data |} in
        call_AddEntry idx (zim.FullURL a)
          {[ "Title" := zim.Title a; "MimeType" := zim.MimeType a ]}
      else ret tt in
    (* progressBar.Increment() *)
    ret tt.

(** The goroutine of [ParseZIM]; [stream (trace r)] is what the returned
    channel delivers, and the channel is closed iff the outcome is
    [Completed]. *)
Definition ParseZIM (idx : SwarmWikiIndexer) (st : Store) : Run :=
  ListTitlesPtrIterator (zim.TitlePtrs (Z_ idx)) (callback idx) st.

(** *** The auxiliary pages *)

(** [tarball.AppendTarData(tarFile, file)], of the package
    [internal/tarball]: the error it returns. *)
Variable AppendTarData : string -> BufferFile -> option ext_error.

Definition MakeRedirectIndexPage (idx : SwarmWikiIndexer) (tarFile : string)
    : Built :=
  match zim.MainPage (Z_ idx) with
  | Err e => {| err := Some (Foreign FromZim e); append_calls := [] |}
  | Ok None =>
      {| err := Some (errors_New "no index found in the ZIM");
         append_calls := [] |}
  | Ok (Some mainPage) =>
      match buildRedirectPage (zim.FullURL mainPage) with
      | Err e => {| err := Some (Foreign FromTemplate e); append_calls := [] |}
      | Ok data =>
          (* buf.Write(data): a bytes.Buffer write returns a nil error *)
          let file := NewBufferFile "index.html" data in
          {| err := Foreign FromTarball <$> AppendTarData tarFile file;
             append_calls := [(tarFile, file)] |}
      end
  end.

Definition MakeErrorPage (idx : SwarmWikiIndexer) (tarFile : string) : Built :=
  let tmplData : gmap string string :=
    {[ "File" := filepath.Base (ZimPath idx) ]} in
  match ExecuteTemplate "error.html" tmplData with
  | (_, Some e) => {| err := Some (Foreign FromTemplate e); append_calls := [] |}
  | (buf, None) =>
      let file := NewBufferFile "error.html" buf in
      {| err := Foreign FromTarball <$> AppendTarData tarFile file;
         append_calls := [(tarFile, file)] |}
  end.

End Indexer.

(** *** The landing page: [MakeIndexSearchPage] *)

(** The values the landing page puts in its [map[string]interface{}]. *)
Inductive tmpl_value : Type :=
| VString (s : string)
| VBool (b : bool)
| VArticles (m : gmap string IndexEntry).

(** The result of the landing-page builder: the returned error, the template
    executions (name, data) and the [tarball.AppendTarData] calls it made. *)
Record Page : Type := {
  perr : option error;
  executed : list (string * gmap string tmpl_value);
  appended : list (string * BufferFile)
}.

(** A template engine on data of any of these types, used on string data
    (as the builders above use it). *)
Definition on_strings
    (engine : string -> gmap string tmpl_value -> bytes * option ext_error)
    (name : string) (tmplData : gmap string string) : bytes * option ext_error :=
  engine name (VString <$> tmplData).

Section LandingPage.

(** [templates.ExecuteTemplate(&buf, name, tmplData)], on data of any of the
    types above. *)
Variable ExecuteTemplate :
  string -> gmap string tmpl_value -> bytes * option ext_error.

Variable AppendTarData : string -> BufferFile -> option ext_error.

(** ["Articles": idx.entries] hands the template the map reference; the
    template reads the map as it is in [st], the store at the time of the call.
    [int(idx.Z.ArticleCount)] is taken on a 64-bit [int]. *)
Definition MakeIndexSearchPage (idx : SwarmWikiIndexer) (tarFile : string)
    (st : Store) : Page :=
  match zim.MainPage (Z_ idx) with
  | Err e => {| perr := Some (Foreign FromZim e); executed := []; appended := [] |}
  | Ok mainPage =>
      let mainURL :=
        match mainPage with
        | Some page => zim.FullURL page
        | None => ""
        end in
      let tmplData : gmap string tmpl_value :=
        {[ "File" := VString (filepath.Base (ZimPath idx));
           "Count" := VString (strconv.Itoa (Z.of_N (zim.ArticleCount (Z_ idx))));
           "Articles" := VArticles (deref st (entries idx));
           "HasMainPage" := VBool (negb (String.eqb mainURL ""));
           "MainURL" := VString mainURL ]} in
      match ExecuteTemplate "index-search.html" tmplData with
      | (_, Some e) =>
          {| perr := Some (Foreign FromTemplate e);
             executed := [("index-search.html", tmplData)];
             appended := [] |}
      | (buf, None) =>
          let file := NewBufferFile "index.html" buf in
          {| perr := Foreign FromTarball <$> AppendTarData tarFile file;
             executed := [("index-search.html", tmplData)];
             appended := [(tarFile, file)] |}
      end
  end.

End LandingPage.

(** ** The directory writer: [UnZim] *)

(** A call on the file system that succeeded. *)
Inductive FsOp : Type :=
| OpMkdirAll (dir : string) (perm : Z)
| OpCreate (name : string)
| OpWrite (name : string) (b : bytes)
| OpClose (name : string).

(** The environment of [UnZim], given the calls that succeeded so far:
    whether [os.Stat(name)] fails with an error for which [os.IsNotExist]
    holds, and whether [os.MkdirAll], [os.Create] and [f.Write] fail.  A
    failed call contributes no operation. *)
Record FsEnv : Type := {
  fs_IsNotExist : list FsOp -> string -> bool;
  fs_MkdirAll : list FsOp -> string -> option ext_error;
  fs_Create : list FsOp -> string -> option ext_error;
  fs_Write : list FsOp -> string -> bytes -> option ext_error
}.

(** The result of an extraction: the returned error and the file-system
    operations performed. *)
Record Extracted : Type := {
  xerr : option error;
  fs_ops : list FsOp
}.

(** [if _, err := os.Stat(dir); os.IsNotExist(err) { if err := os.MkdirAll(dir,
    0755); err != nil { return err } }], the statement [UnZim] has for the
    output directory and for every entry's directory. *)
Definition mkdir_if_missing (env : FsEnv) (ops : list FsOp) (dir : string)
    : option ext_error * list FsOp :=
  if fs_IsNotExist env ops dir then
    match fs_MkdirAll env ops dir with
    | Some e => (Some e, ops)
    | None => (None, ops ++ [OpMkdirAll dir 0x1ed (* 0755 *)])
    end
  else (None, ops).

(** [for file := range files { ... }]; the result of [f.Close()] is
    dropped. *)
Fixpoint UnZim_range (env : FsEnv) (outputDir : string) (files : list Article)
    (ops : list FsOp) : Extracted :=
  match files with
  | [] => {| xerr := None; fs_ops := ops |}
  | file :: rest =>
      let filePath := filepath.Join [outputDir; path file] in
      let fileDirPath := filepath.Dir filePath in
      match mkdir_if_missing env ops fileDirPath with
      | (Some e, ops1) => {| xerr := Some (Foreign FromOS e); fs_ops := ops1 |}
      | (None, ops1) =>
          match fs_Create env ops1 filePath with
          | Some e => {| xerr := Some (Foreign FromOS e); fs_ops := ops1 |}
          | None =>
              let ops2 := ops1 ++ [OpCreate filePath] in
              match fs_Write env ops2 filePath (data file) with
              | Some e => {| xerr := Some (Foreign FromOS e); fs_ops := ops2 |}
              | None =>
                  UnZim_range env outputDir rest
                    (ops2 ++ [OpWrite filePath (data file); OpClose filePath])
              end
          end
      end
  end.

Definition UnZim (env : FsEnv) (outputDir : string) (files : list Article)
    : Extracted :=
  match mkdir_if_missing env [] outputDir with
  | (Some e, ops) => {| xerr := Some (Foreign FromOS e); fs_ops := ops |}
  | (None, ops) => UnZim_range env outputDir files ops
  end.

(** ** The bee client: [BytesService.Upload] *)

Module http.

(** [http.Header]: canonical key to the list of its values. *)
Abbreviation Header := (gmap string (list string)).

Definition in_range (lo hi c : ascii) : bool :=
  (N_of_ascii lo <=? N_of_ascii c)%N && (N_of_ascii c <=? N_of_ascii hi)%N.

Definition is_lower (c : ascii) : bool := in_range "a" "z" c.
Definition is_upper (c : ascii) : bool := in_range "A" "Z" c.

(** The token bytes of RFC 7230, the table of [validHeaderFieldByte]. *)
Definition validHeaderFieldByte (c : ascii) : bool :=
  is_lower c || is_upper c || in_range "0" "9" c
  || existsb (Ascii.eqb c)
       ["!"; "#"; "$"; "%"; "&"; "'"; "*"; "+"; "-"; "."; "^"; "_"; "`";
        "|"; "~"]%char.

Definition toLower : N := 32.

(** First letter and every letter after a dash in upper case, the others in
    lower case. *)
Fixpoint recase (upper : bool) (s : list ascii) : list ascii :=
  match s with
  | [] => []
  | c :: r =>
      let c' :=
        if upper && is_lower c then ascii_of_N (N_of_ascii c - toLower)
        else if negb upper && is_upper c then ascii_of_N (N_of_ascii c + toLower)
        else c in
      c' :: recase (Ascii.eqb c' "-") r
  end.

(** [textproto.CanonicalMIMEHeaderKey]: a key with a byte that is no token
    byte is returned unchanged. *)
Definition CanonicalMIMEHeaderKey (s : string) : string :=
  let a := list_ascii_of_string s in
  if forallb validHeaderFieldByte a then string_of_list_ascii (recase true a)
  else s.

Definition Set_ (h : Header) (key value : string) : Header :=
  <[ CanonicalMIMEHeaderKey key := [value] ]> h.

Definition Add (h : Header) (key value : string) : Header :=
  let k := CanonicalMIMEHeaderKey key in
  <[ k := default [] (h !! k) ++ [value] ]> h.

(** [h.Get(key)]: the first value of the key, or the empty string. *)
Definition Get (h : Header) (key : string) : string :=
  match h !! CanonicalMIMEHeaderKey key with
  | Some (v :: _) => v
  | _ => ""
  end.

(** [h.Values(key)]. *)
Definition Values (h : Header) (key : string) : list string :=
  default [] (h !! CanonicalMIMEHeaderKey key).

Definition MethodPost : string := "POST".

End http.

Module api.

(** Modelled from the spec: [UploadOptions] is declared in a file of the
    package that is not among the sources; the upload contract is
    [upload(reader, {pin: bool})]. *)
Record UploadOptions : Type := {
  Pin : bool
}.

Record BytesUploadResponse : Type := {
  Reference : bytes
}.

(** The arguments of one [RequestWithHeader] call; [body] is what the
    [io.Reader] yields. *)
Record Request : Type := {
  method : string;
  url : string;
  header : http.Header;
  body : bytes
}.

(** The result of [Upload]: the response, the error, and the requests it
    issued. *)
Record Uploaded : Type := {
  resp : BytesUploadResponse;
  uerr : option ext_error;
  issued : list Request
}.

Section BytesService.

(** The constant [SwarmPinHeader] of the package (declared outside
    [bytes.go]). *)
Variable SwarmPinHeader : string.

(** [bs.api.C.RequestWithHeader(ctx, method, path, header, data, &resp)]:
    the value left in [resp] and the error. *)
Variable RequestWithHeader : Request -> BytesUploadResponse * option ext_error.

Definition Upload (data : bytes) (o : UploadOptions) : Uploaded :=
  let header : http.Header := ∅ in
  let header := http.Set_ header "Content-Type" "application/octet-stream" in
  let header :=
    if Pin o then http.Add header SwarmPinHeader "true" else header in
  let req := {| method := http.MethodPost; url := "/bytes";
                header := header; body := data |} in
  let '(resp, err) := RequestWithHeader req in
  {| resp := resp; uerr := err; issued := [req] |}.

(** [swarm.Address] of the bee library and its [String()] method. *)
Variable Address : Type.
Variable Address_String : Address -> string.

(** [bs.api.C.RequestData(ctx, method, path, body)]: the response body or
    the error. *)
Variable RequestData : string -> string -> option bytes -> result bytes.


End BytesService.

End api.

(** * Vocabulary of the properties, and sample data *)

(** ** The metadata index *)

(** A sequence of [AddEntry] calls on one indexer. *)
Definition add_all (idx : SwarmWikiIndexer)
    (calls : list (string * gmap string string)) (st : Store) : Store :=
  foldl (fun st c => AddEntry idx c.1 c.2 st) st calls.

(** The metadata of the last call for [p], if there is one. *)
Fixpoint last_supplied (calls : list (string * gmap string string))
    (p : string) : option (gmap string string) :=
  match calls with
  | [] => None
  | c :: rest =>
      match last_supplied rest p with
      | Some md => Some md
      | None => if decide (c.1 = p) then Some c.2 else None
      end
  end.

(** An archive without entries, and an indexer on it whose map is the first
    object of the store. *)
Definition empty_reader : zim.ZimReader :=
  {| zim.ArticleCount := 0;
     zim.TitlePtrs := [];
     zim.ArticleAtURLIdx := fun _ => Err "entry not found";
     zim.MainPage := Ok None |}.

Definition open_empty (zimPath : string) : result zim.ZimReader := Ok empty_reader.

Definition idx0 : SwarmWikiIndexer :=
  {| ZimPath := "site.zim"; Z_ := empty_reader; entries := 0 |}.

Definition md (title mime : string) : gmap string string :=
  {[ "Title" := title; "MimeType" := mime ]}.

Definition calls0 : list (string * gmap string string) :=
  [("A/home.html", md "Home" "text/html");
   ("A/about.html", md "About" "text/html");
   ("A/home.html", md "Home page" "text/html")].

(** ** The producer *)

Definition is_deleted (a : zim.Article) : bool :=
  (zim.EntryType a =? zim.DeletedEntry)%Z.

Definition is_redirect (a : zim.Article) : bool :=
  (zim.EntryType a =? zim.RedirectEntry)%Z.

(** The entries of the archive, in the order the iterator visits them. *)
Definition visited_from (z : zim.ZimReader) (ptrs : list N) : list zim.Article :=
  omap (fun i => match zim.ArticleAtURLIdx z i with
                 | Ok a => Some a
                 | Err _ => None
                 end) ptrs.

Definition visited (z : zim.ZimReader) : list zim.Article :=
  visited_from z (zim.TitlePtrs z).

Definition is_ok {A} (r : result A) : bool :=
  match r with Ok _ => true | Err _ => false end.

(** The decoder calls made for the entry at [i] succeed: the entry itself,
    and, where the producer asks for them (entry neither deleted nor in an
    unrecognized namespace), the redirect target or the payload. *)
Definition entry_ok (z : zim.ZimReader) (i : N) : bool :=
  match zim.ArticleAtURLIdx z i with
  | Err _ => false
  | Ok a =>
      if is_deleted a || negb (recognized (zim.Namespace a)) then true
      else if is_redirect a then
        match zim.RedirectIndex a with
        | Ok ridx => is_ok (zim.ArticleAtURLIdx z ridx)
        | Err _ => false
        end
      else is_ok (zim.Data a)
  end.

Definition accessors_succeed (z : zim.ZimReader) : bool :=
  forallb (entry_ok z) (zim.TitlePtrs z).

(** What the producer does for an entry it does not skip: the send, then the
    insertion. *)
Definition emission (a : zim.Article) (d : bytes) : list Event :=
  [EvSend {| path := zim.FullURL a; data := d |};
   EvAddEntry (zim.FullURL a)
     {[ "Title" := zim.Title a; "MimeType" := zim.MimeType a ]}].

(** The order C3 states: every send is preceded by an insertion for the path
    sent. *)
Definition insert_before_emit (tr : list Event) : Prop :=
  ∀ i a, tr !! i = Some (EvSend a) ->
    ∃ j metadata, j < i ∧ tr !! j = Some (EvAddEntry (path a) metadata).

Ltac callback_step :=
  match goal with
  | |- context [match ?r with Ok _ => _ | Err _ => _ end] =>
      let E := fresh "E" in destruct r eqn:E; simpl
  | |- context [if ?b then _ else _] =>
      let E := fresh "E" in destruct b eqn:E; simpl
  end.

(** A sample archive of six entries: an article, a redirect to it, a
    redirect to it from the namespace [W], a deleted article, a style sheet,
    and an article of the namespace [U]. *)
Definition entry (ty : Z) (ns : ascii) (url title mime : string)
    (payload : result bytes) (target : result N) : zim.Article :=
  {| zim.EntryType := ty;
     zim.Title := title;
     zim.Namespace := ns;
     zim.FullURL := String ns ("/" +:+ url);
     zim.MimeType := mime;
     zim.Data := payload;
     zim.RedirectIndex := target |}.

Definition home : zim.Article :=
  entry 0 "A" "home.html" "Home" "text/html"
    (Ok (list_byte_of_string "<h1>Home</h1>")) (Err "Not a RedirectEntry").

Definition start : zim.Article :=
  entry zim.RedirectEntry "A" "start" "Start" "" (Err "no blob") (Ok 0%N).

Definition mainPage : zim.Article :=
  entry zim.RedirectEntry "W" "mainPage" "mainPage" "" (Err "no blob") (Ok 0%N).

Definition gone : zim.Article :=
  entry zim.DeletedEntry "A" "gone.html" "Gone" "" (Err "no blob")
    (Err "Not a RedirectEntry").

Definition style : zim.Article :=
  entry 1 "-" "style.css" "style.css" "text/css"
    (Ok (list_byte_of_string "body{}")) (Err "Not a RedirectEntry").

Definition note : zim.Article :=
  entry 0 "U" "note.html" "Note" "text/html"
    (Ok (list_byte_of_string "<p>note</p>")) (Err "Not a RedirectEntry").

Definition sample_reader : zim.ZimReader :=
  {| zim.ArticleCount := 6;
     zim.TitlePtrs := [0; 1; 2; 3; 4; 5]%N;
     zim.ArticleAtURLIdx := fun i =>
       match i with
       | 0 => Ok home
       | 1 => Ok start
       | 2 => Ok mainPage
       | 3 => Ok gone
       | 4 => Ok style
       | 5 => Ok note
       | _ => Err "entry not found"
       end%N;
     zim.MainPage := Ok (Some home) |}.

Definition sample_idx : SwarmWikiIndexer :=
  {| ZimPath := "/data/site.zim"; Z_ := sample_reader; entries := 0 |}.

(** A template set with the two pages the builders execute. *)
Definition sample_templates (name : string) (tmplData : gmap string string)
    : bytes * option ext_error :=
  if String.eqb name "index-redirect.html" then
    (list_byte_of_string
       ("<meta http-equiv=refresh content='0; url="
        +:+ default "" (tmplData !! "MainURL") +:+ "'>"), None)
  else if String.eqb name "error.html" then
    (list_byte_of_string
       ("<p>Page not found in " +:+ default "" (tmplData !! "File") +:+ "</p>"),
     None)
  else ([], Some ("html/template: " +:+ name +:+ " is undefined")).

(** ** The page builders and the tar writer *)

(** The files a builder handed to [AppendTarData]. *)
Definition rendered (b : Built) : list BufferFile := map snd (append_calls b).

Definition always_appends (tarFile : string) (file : BufferFile)
    : option ext_error := None.

Definition never_appends (tarFile : string) (file : BufferFile)
    : option ext_error := Some "open: permission denied".

(** One header and one payload per entry, in the order of the stream. *)
Definition tar_records (files : list Article) : list tar.Item :=
  flat_map
    (fun file =>
       [tar.Hdr {| tar.Name := path file;
                   tar.Mode := 0x180;
                   tar.Size := Z.of_nat (length (data file)) |};
        tar.Payload (data file)])
    files.

(** A file system and writer on which no call fails. *)
Definition reliable : TarEnv :=
  {| os_Create := fun _ => None;
     tar_WriteHeader := fun _ _ => None;
     tar_Write := fun _ _ => None;
     tar_Close := fun _ => None |}.

Definition sample_stream : list Article :=
  [{| path := "A/home.html"; data := list_byte_of_string "<h1>Home</h1>" |};
   {| path := "A/start"; data := list_byte_of_string "go" |};
   {| path := "-/style.css"; data := [] |}].

(** ** The upload request *)

(** A node that accepts every upload. *)
Definition sample_client (req : api.Request)
    : api.BytesUploadResponse * option ext_error :=
  ({| api.Reference := list_byte_of_string "c0ffee" |}, None).

(** ** Vocabulary of the further properties *)

(** The [AddEntry] calls of a trace, in order. *)
Definition inserts (tr : list Event) : list (string * gmap string string) :=
  omap (fun e => match e with
                 | EvAddEntry p metadata => Some (p, metadata)
                 | EvSend _ => None
                 end) tr.

(** The decoder opening the sample archive, and the indexer [New] makes on it
    in a store that already holds one map. *)
Definition open_sample (zimPath : string) : result zim.ZimReader := Ok sample_reader.

Definition sample_idx1 : SwarmWikiIndexer :=
  {| ZimPath := "/data/site.zim"; Z_ := sample_reader; entries := 1 |}.

(** Where the payload [d] sent for the decoded entry [a] comes from: the
    redirect page built for the base name of the resolved target's URL, or
    the entry's own data. *)
Definition payload_from
    (ExecuteTemplate : string -> gmap string string -> bytes * option ext_error)
    (z : zim.ZimReader) (a : zim.Article) (d : bytes) : Prop :=
  if is_redirect a then
    ∃ ridx ra,
      zim.RedirectIndex a = Ok ridx
      ∧ zim.ArticleAtURLIdx z ridx = Ok ra
      ∧ buildRedirectPage ExecuteTemplate (path.Base (zim.FullURL ra)) = Ok d
  else zim.Data a = Ok d.

(** A template set in which no page is defined. *)
Definition no_templates (name : string) (tmplData : gmap string string)
    : bytes * option ext_error :=
  ([], Some ("html/template: " +:+ name +:+ " is undefined")).

(** An archive of two entries, none of them a redirect. *)
Definition plain_reader : zim.ZimReader :=
  {| zim.ArticleCount := 2;
     zim.TitlePtrs := [1; 0]%N;
     zim.ArticleAtURLIdx := fun i =>
       match i with
       | 0 => Ok home
       | 1 => Ok style
       | _ => Err "entry not found"
       end%N;
     zim.MainPage := Ok None |}.

Definition plain_idx : SwarmWikiIndexer :=
  {| ZimPath := "plain.zim"; Z_ := plain_reader; entries := 0 |}.

(** The names of the headers of a tar file, in order. *)
Definition header_names (its : list tar.Item) : list string :=
  omap (fun it => match it with
                  | tar.Hdr h => Some (tar.Name h)
                  | _ => None
                  end) its.

(** The operations on files among the file-system operations. *)
Definition is_file_op (op : FsOp) : bool :=
  match op with
  | OpMkdirAll _ _ => false
  | _ => true
  end.

Definition file_ops (ops : list FsOp) : list FsOp := List.filter is_file_op ops.

(** What a complete extraction does to files: each entry's file is created
    under the output directory, written and closed, in stream order. *)
Definition extract_ops (outputDir : string) (files : list Article) : list FsOp :=
  flat_map
    (fun file =>
       let filePath := filepath.Join [outputDir; path file] in
       [OpCreate filePath; OpWrite filePath (data file); OpClose filePath])
    files.

(** The effect of an operation on the contents of the files written:
    [os.Create] truncates, [Write] appends. *)
Definition apply_op (m : gmap string bytes) (op : FsOp) : gmap string bytes :=
  match op with
  | OpCreate name => <[ name := [] ]> m
  | OpWrite name b => alter (fun content => content ++ b) name m
  | _ => m
  end.

(** The contents of the files a sequence of operations wrote. *)
Definition written (ops : list FsOp) : gmap string bytes := foldl apply_op ∅ ops.

(** The entries of a stream that land in the file [p]. *)
Definition landing_in (outputDir p : string) (files : list Article) : list Article :=
  List.filter (fun file => String.eqb (filepath.Join [outputDir; path file]) p) files.

(** A file system on which no call fails; a directory is missing until it is
    made. *)
Definition reliable_fs : FsEnv :=
  {| fs_IsNotExist := fun ops dir =>
       negb (existsb (fun op => match op with
                                | OpMkdirAll d _ => String.eqb d dir
                                | _ => false
                                end) ops);
     fs_MkdirAll := fun _ _ => None;
     fs_Create := fun _ _ => None;
     fs_Write := fun _ _ _ => None |}.

(** A stream with two entries for the same file. *)
Definition colliding_stream : list Article :=
  [{| path := "A/home.html"; data := list_byte_of_string "old" |};
   {| path := "-/style.css"; data := list_byte_of_string "body{}" |};
   {| path := "A//home.html"; data := list_byte_of_string "new" |}].

(** A template engine that renders the name of the page and the number of
    values it was given. *)
Definition sample_engine (name : string) (tmplData : gmap string tmpl_value)
    : bytes * option ext_error :=
  (list_byte_of_string (name +:+ ":" +:+ strconv.Itoa (Z.of_nat (size tmplData))),
   None).



(** * Properties *)

(** ** The metadata index *)

Lemma AddEntry_length idx p md (st : Store) :
  length (AddEntry idx p md st) = length st.
Proof. unfold AddEntry. by rewrite length_alter. Qed.

Lemma add_all_length idx calls (st : Store) :
  length (add_all idx calls st) = length st.
Proof.
  revert st. induction calls as [|c calls IH]; intros st; [done|].
  simpl. rewrite IH. apply AddEntry_length.
Qed.

(** [AddEntry] is an insertion into the map the indexer points to. *)
Lemma deref_AddEntry idx p md (st : Store) :
  entries idx < length st ->
  deref (AddEntry idx p md st) (entries idx)
  = <[ p := {| Path := p; Metadata := md |} ]> (deref st (entries idx)).
Proof.
  intros Hlt. unfold deref, AddEntry.
  destruct (lookup_lt_is_Some_2 st (entries idx) Hlt) as [m Hm].
  rewrite list_lookup_alter_eq, Hm. done.
Qed.

(** Other maps of the store are left alone. *)
Lemma deref_AddEntry_ne idx p md (st : Store) l :
  l ≠ entries idx ->
  deref (AddEntry idx p md st) l = deref st l.
Proof.
  intros Hne. unfold deref, AddEntry. by rewrite list_lookup_alter_ne.
Qed.

Lemma New_allocates reader zimPath (st0 st1 : Store) idx :
  New reader zimPath st0 = (inr idx, st1) ->
  entries idx < length st1 ∧ deref st1 (entries idx) = ∅ ∧ ZimPath idx = zimPath.
Proof.
  unfold New, make_map. destruct (reader zimPath) as [z|e]; [|done].
  intros [= <- <-]. simpl. rewrite length_app. simpl. split; [lia|].
  split; [|done]. unfold deref. by rewrite lookup_app_r, Nat.sub_diag.
Qed.

(** The map after a sequence of calls: the last call for a key decides its
    entry, a key no call names keeps what it had. *)
Lemma deref_add_all idx calls (st : Store) p :
  entries idx < length st ->
  deref (add_all idx calls st) (entries idx) !! p
  = match last_supplied calls p with
    | Some md => Some {| Path := p; Metadata := md |}
    | None => deref st (entries idx) !! p
    end.
Proof.
  revert st. induction calls as [|[q md] calls IH]; intros st Hlt; [done|].
  simpl. rewrite IH by (by rewrite AddEntry_length).
  destruct (last_supplied calls p) as [md'|]; [done|].
  rewrite deref_AddEntry by done. simpl.
  destruct (decide (q = p)) as [->|Hne].
  - by rewrite lookup_insert_eq.
  - by rewrite lookup_insert_ne.
Qed.

(** C2, as stated, at a fresh indexer: the mapping that [Entries] returned
    before [AddEntry "A/home.html"] is not the same mapping afterwards. *)
Lemma Entries_snapshot_changed :
  New open_empty "site.zim" [] = (inr idx0, [∅])
  ∧ deref (AddEntry idx0 "A/home.html" (md "Home" "text/html") [∅]) (Entries idx0)
    ≠ deref [∅] (Entries idx0).
Proof.
  split; [reflexivity|]. intros Heq.
  apply (f_equal (fun m : gmap string IndexEntry => m !! "A/home.html")) in Heq.
  unfold Entries in Heq. rewrite deref_AddEntry in Heq by (simpl; lia).
  rewrite lookup_insert_eq in Heq. discriminate Heq.
Qed.

(** C2, amended: [Entries] returns the live map.  After any sequence of
    [AddEntry] calls on an indexer made by [New], what an earlier [Entries()]
    result denotes after a further [AddEntry(path, metadata)] is the earlier
    mapping with [path] bound to [{path, metadata}]: the call is visible
    through it, and no other key changes. *)
Theorem Entries_sees_later_AddEntry reader zimPath (st0 st1 : Store) idx
    calls p metadata :
  New reader zimPath st0 = (inr idx, st1) ->
  let st := add_all idx calls st1 in
  let snapshot := Entries idx in
  deref (AddEntry idx p metadata st) snapshot
  = <[ p := {| Path := p; Metadata := metadata |} ]> (deref st snapshot).
Proof.
  intros HNew st snapshot. apply New_allocates in HNew as (Hlt & _ & _).
  apply deref_AddEntry. subst st. by rewrite add_all_length.
Qed.

Lemma Entries_sees_later_AddEntry_witness :
  deref (AddEntry idx0 "A/new.html" (md "New" "text/html") (add_all idx0 calls0 [∅]))
        (Entries idx0)
  = <[ "A/new.html" := {| Path := "A/new.html"; Metadata := md "New" "text/html" |} ]>
      (deref (add_all idx0 calls0 [∅]) (Entries idx0)).
Proof.
  apply (Entries_sees_later_AddEntry open_empty "site.zim" [] [∅] idx0 calls0).
  reflexivity.
Defined.

(** C9: from the empty map made by [New], after every sequence of [AddEntry]
    calls, an entry stored under the key [p] has [Path] equal to [p] and the
    [Metadata] of the last [AddEntry] call for [p]. *)
Theorem entries_keyed_by_path_last_write_wins reader zimPath (st0 st1 : Store)
    idx calls p e :
  New reader zimPath st0 = (inr idx, st1) ->
  deref (add_all idx calls st1) (entries idx) !! p = Some e ->
  Path e = p ∧ last_supplied calls p = Some (Metadata e).
Proof.
  intros HNew. apply New_allocates in HNew as (Hlt & Hempty & _).
  rewrite deref_add_all, Hempty by done.
  destruct (last_supplied calls p) as [m|].
  - by intros [= <-].
  - by rewrite lookup_empty.
Qed.

Lemma entries_keyed_by_path_last_write_wins_witness :
  Path {| Path := "A/home.html"; Metadata := md "Home page" "text/html" |}
  = "A/home.html"
  ∧ last_supplied calls0 "A/home.html"
    = Some (Metadata {| Path := "A/home.html";
                        Metadata := md "Home page" "text/html" |}).
Proof.
  apply (entries_keyed_by_path_last_write_wins open_empty "site.zim" [] [∅]
           idx0 calls0).
  - reflexivity.
  - vm_compute. reflexivity.
Defined.

(** C4, on the code: no depth of the call stack lets [Data()] return, for
    any article. *)
Theorem Article_Data_never_returns (fuel : nat) (a : Article) :
  Article_Data fuel a = None.
Proof. induction fuel as [|fuel IH]; [reflexivity|exact IH]. Qed.

(** ** The producer *)

Section Producer.

Variable ExecuteTemplate :
  string -> gmap string string -> bytes * option ext_error.

Abbreviation callback' := (callback ExecuteTemplate).
Abbreviation ParseZIM' := (ParseZIM ExecuteTemplate).
Abbreviation buildRedirectPage' := (buildRedirectPage ExecuteTemplate).

(** One call of the callback performs nothing observable or one
    [emission]. *)
Lemma callback_out idx i (st : Store) :
  out (callback' idx i st) = []
  ∨ ∃ a d, zim.ArticleAtURLIdx (Z_ idx) i = Ok a
           ∧ is_deleted a = false ∧ recognized (zim.Namespace a) = true
           ∧ out (callback' idx i st) = emission a d.
Proof.
  unfold callback, bind, try_, is_deleted; simpl.
  repeat (callback_step; try (by left)); right; eexists _, _; done.
Qed.

(** With the decoder calls for [i] succeeding and no [log.Fatalf], the
    callback emits exactly when the entry is kept. *)
Lemma callback_ok idx i (st : Store) :
  entry_ok (Z_ idx) i = true ->
  (∀ msg, flow (callback' idx i st) ≠ Fatalf msg) ->
  ∃ a, zim.ArticleAtURLIdx (Z_ idx) i = Ok a
       ∧ if negb (is_deleted a) && recognized (zim.Namespace a)
         then ∃ d, out (callback' idx i st) = emission a d
         else out (callback' idx i st) = [].
Proof.
  unfold entry_ok, callback, bind, try_, is_deleted, is_redirect, is_ok; simpl.
  destruct (zim.ArticleAtURLIdx (Z_ idx) i) as [a|e] eqn:Ea; [|done]. simpl.
  intros Hok Hfatal. exists a. split; [done|]. revert Hok Hfatal.
  destruct (zim.EntryType a =? zim.DeletedEntry)%Z; simpl; [done|].
  destruct (recognized (zim.Namespace a)); simpl; [|done].
  destruct (zim.EntryType a =? zim.RedirectEntry)%Z; simpl.
  - destruct (zim.RedirectIndex a) as [ridx|]; [|done]. simpl.
    destruct (zim.ArticleAtURLIdx (Z_ idx) ridx) as [ra|]; [|done]. simpl.
    destruct (buildRedirectPage _ _) as [page|e]; simpl.
    + intros _ _. by exists page.
    + intros _ Hfatal. exfalso. eapply Hfatal. reflexivity.
  - destruct (zim.Data a) as [d|]; [|done]. simpl. intros _ _. by exists d.
Qed.


(** [log.Fatalf] is reached only through an error of [buildRedirectPage]. *)
Lemma callback_fatal_cause idx i (st : Store) msg :
  flow (callback' idx i st) = Fatalf msg ->
  ∃ pagePath e, buildRedirectPage' pagePath = Err e.
Proof.
  unfold callback, bind, try_; simpl.
  repeat (callback_step; try done); intros _; eauto.
Qed.

(** A callback that ends in [log.Fatalf] has sent nothing. *)
Lemma callback_fatal_out idx i (st : Store) msg :
  flow (callback' idx i st) = Fatalf msg -> out (callback' idx i st) = [].
Proof.
  unfold callback, bind, try_; simpl.
  repeat (callback_step; try done).
Qed.

Lemma iterator_cons i ptrs idx (st : Store) :
  let s := callback' idx i st in
  let r := ListTitlesPtrIterator (i :: ptrs) (callback' idx) st in
  (∃ msg, flow s = Fatalf msg ∧ outcome r = Aborted msg ∧ trace r = out s)
  ∨ ((∀ msg, flow s ≠ Fatalf msg)
     ∧ outcome r = outcome (ListTitlesPtrIterator ptrs (callback' idx) (heap s))
     ∧ trace r = out s ++ trace (ListTitlesPtrIterator ptrs (callback' idx) (heap s))).
Proof.
  simpl. destruct (flow (callback' idx i st)) as [[]| |msg] eqn:Ef; simpl.
  - right. done.
  - right. done.
  - left. by exists msg.
Qed.

(** The whole trace is a sequence of emissions. *)
Lemma iterator_trace_emissions ptrs idx (st : Store) :
  ∃ l : list (zim.Article * bytes),
    trace (ListTitlesPtrIterator ptrs (callback' idx) st)
    = flat_map (fun ad => emission ad.1 ad.2) l.
Proof.
  revert st. induction ptrs as [|i ptrs IH]; intros st.
  - by exists [].
  - destruct (iterator_cons i ptrs idx st) as [(msg & Hf & _ & ->)|(_ & _ & ->)].
    + rewrite (callback_fatal_out _ _ _ _ Hf). by exists [].
    + destruct (IH (heap (callback' idx i st))) as [l ->].
      destruct (callback_out idx i st) as [->|(a & d & _ & _ & _ & ->)].
      * by exists l.
      * by exists ((a, d) :: l).
Qed.

(** A completed run over entries whose decoder calls succeed emits for the
    kept entries, one emission each, in the order visited. *)
Lemma iterator_trace_kept ptrs idx (st : Store) :
  forallb (entry_ok (Z_ idx)) ptrs = true ->
  outcome (ListTitlesPtrIterator ptrs (callback' idx) st) = Completed ->
  ∃ l : list (zim.Article * bytes),
    trace (ListTitlesPtrIterator ptrs (callback' idx) st)
    = flat_map (fun ad => emission ad.1 ad.2) l
    ∧ map fst l
      = List.filter
          (fun a => negb (is_deleted a) && recognized (zim.Namespace a))
          (visited_from (Z_ idx) ptrs).
Proof.
  revert st. induction ptrs as [|i ptrs IH]; intros st Hok Hdone.
  - by exists [].
  - simpl in Hok. apply andb_true_iff in Hok as [Hi Hok].
    destruct (iterator_cons i ptrs idx st)
      as [(msg & _ & Hab & _)|(Hnf & Hout & ->)].
    { rewrite Hab in Hdone. discriminate Hdone. }
    rewrite Hout in Hdone.
    destruct (IH _ Hok Hdone) as (l & -> & Hl).
    destruct (callback_ok idx i st Hi Hnf) as (a & Ha & Hkept).
    unfold visited_from in *. simpl. rewrite Ha. simpl.
    destruct (negb (is_deleted a) && recognized (zim.Namespace a)).
    + destruct Hkept as [d ->]. exists ((a, d) :: l). simpl. by rewrite Hl.
    + rewrite Hkept. by exists l.
Qed.

(** With a redirect template that executes without error on every page
    path, every run reaches the end of the archive. *)
Lemma iterator_completes ptrs idx (st : Store) :
  (∀ pagePath, is_ok (buildRedirectPage' pagePath) = true) ->
  outcome (ListTitlesPtrIterator ptrs (callback' idx) st) = Completed.
Proof.
  intros Htmpl. revert st. induction ptrs as [|i ptrs IH]; intros st; [done|].
  destruct (iterator_cons i ptrs idx st) as [(msg & Hf & _ & _)|(_ & -> & _)].
  - apply callback_fatal_cause in Hf as (pagePath & e & He).
    specialize (Htmpl pagePath). rewrite He in Htmpl. discriminate Htmpl.
  - apply IH.
Qed.

End Producer.

Lemma stream_app (tr1 tr2 : list Event) :
  stream (tr1 ++ tr2) = stream tr1 ++ stream tr2.
Proof. unfold stream. apply omap_app. Qed.

Lemma stream_emissions (l : list (zim.Article * bytes)) :
  stream (flat_map (fun ad => emission ad.1 ad.2) l)
  = map (fun ad => {| path := zim.FullURL ad.1; data := ad.2 |}) l.
Proof. induction l as [|[a d] l IH]; [done|]. simpl. by rewrite <- IH. Qed.

Lemma AddEntry_in_emissions (l : list (zim.Article * bytes)) p metadata :
  EvAddEntry p metadata ∈ flat_map (fun ad => emission ad.1 ad.2) l ->
  ∃ a, a ∈ map fst l ∧ p = zim.FullURL a
       ∧ metadata = {[ "Title" := zim.Title a; "MimeType" := zim.MimeType a ]}.
Proof.
  induction l as [|[a d] l IH]; simpl.
  - by intros ?%elem_of_nil.
  - rewrite !elem_of_cons. intros [H|[H|H]]; [done| |].
    + injection H as -> ->. exists a. split; [left|done].
    + destruct (IH H) as (a' & ? & ?). exists a'. split; [by right|done].
Qed.


Section ProducerClaims.

Variable ExecuteTemplate :
  string -> gmap string string -> bytes * option ext_error.


(** C3, amended: in every run, aborted or not, each entry the producer
    does not skip is first sent on the output stream and then inserted
    into the metadata index, as [{path, {Title, MimeType}}]; the trace is
    a sequence of such send-then-insert pairs. *)
Theorem ParseZIM_emits_then_inserts idx (st : Store) :
  ∃ l : list (zim.Article * bytes),
    trace (ParseZIM ExecuteTemplate idx st)
    = flat_map
        (fun ad =>
           [EvSend {| path := zim.FullURL ad.1; data := ad.2 |};
            EvAddEntry (zim.FullURL ad.1)
              {[ "Title" := zim.Title ad.1; "MimeType" := zim.MimeType ad.1 ]}])
        l.
Proof. apply iterator_trace_emissions. Qed.


End ProducerClaims.


(** C3, as stated, on the sample run: the first event of the producer is the
    send of [A/home.html]; no insertion precedes it. *)
Lemma ParseZIM_sends_before_inserting :
  trace (ParseZIM sample_templates sample_idx [∅]) !! 0
  = Some (EvSend {| path := "A/home.html";
                    data := list_byte_of_string "<h1>Home</h1>" |})
  ∧ trace (ParseZIM sample_templates sample_idx [∅]) !! 1
    = Some (EvAddEntry "A/home.html" (md "Home" "text/html"))
  ∧ ¬ insert_before_emit (trace (ParseZIM sample_templates sample_idx [∅])).
Proof.
  assert (trace (ParseZIM sample_templates sample_idx [∅]) !! 0
          = Some (EvSend {| path := "A/home.html";
                            data := list_byte_of_string "<h1>Home</h1>" |}))
    as H0 by (vm_compute; reflexivity).
  split; [exact H0|]. split; [vm_compute; reflexivity|].
  intros Hbefore. destruct (Hbefore 0 _ H0) as (j & metadata & Hlt & _). lia.
Qed.



(** What the sample run sends for the redirect [A/start]. *)
Example sample_redirect_stub :
  stream (trace (ParseZIM sample_templates sample_idx [∅])) !! 1
  = Some {| path := "A/start";
            data := list_byte_of_string
                      "<meta http-equiv=refresh content='0; url=home.html'>" |}.
Proof. vm_compute. reflexivity. Qed.

(** ** The page builders *)

(** C6: [MakeRedirectIndexPage] returns the error made by
    [errors.New("no index found in the ZIM")] exactly when the decoder's
    [MainPage()] succeeds and returns no entry. *)
Theorem MakeRedirectIndexPage_no_main_page
    (ExecuteTemplate : string -> gmap string string -> bytes * option ext_error)
    (AppendTarData : string -> BufferFile -> option ext_error)
    (idx : SwarmWikiIndexer) (tarFile : string) :
  err (MakeRedirectIndexPage ExecuteTemplate AppendTarData idx tarFile)
  = Some (errors_New "no index found in the ZIM")
  <-> zim.MainPage (Z_ idx) = Ok None.
Proof.
  unfold MakeRedirectIndexPage.
  destruct (zim.MainPage (Z_ idx)) as [[mainPage|]|e]; simpl.
  - destruct (buildRedirectPage _ _) as [page|e]; simpl.
    + destruct (AppendTarData _ _); simpl; split; intros H; discriminate H.
    + split; intros H; discriminate H.
  - done.
  - split; intros H; discriminate H.
Qed.

(** C8: the file [MakeErrorPage] renders depends on the indexer only through
    the base name of its [ZimPath]: two indexers with the same base name,
    whatever their archives, entry maps, target files and tarball helpers,
    render the same [error.html]. *)
Theorem MakeErrorPage_depends_on_base_name
    (ExecuteTemplate : string -> gmap string string -> bytes * option ext_error)
    (AppendTarData1 AppendTarData2 : string -> BufferFile -> option ext_error)
    (idx1 idx2 : SwarmWikiIndexer) (tarFile1 tarFile2 : string) :
  filepath.Base (ZimPath idx1) = filepath.Base (ZimPath idx2) ->
  rendered (MakeErrorPage ExecuteTemplate AppendTarData1 idx1 tarFile1)
  = rendered (MakeErrorPage ExecuteTemplate AppendTarData2 idx2 tarFile2).
Proof.
  intros Hbase. unfold MakeErrorPage. rewrite Hbase.
  destruct (ExecuteTemplate _ _) as [buf [e|]]; reflexivity.
Qed.

Lemma MakeErrorPage_depends_on_base_name_witness :
  rendered (MakeErrorPage sample_templates always_appends sample_idx "out.tar")
  = rendered (MakeErrorPage sample_templates never_appends idx0 "other.tar").
Proof.
  apply (MakeErrorPage_depends_on_base_name sample_templates).
  vm_compute. reflexivity.
Defined.

(** ** The tar writer *)

Lemma TarZim_range_items env files (w : list tar.Item) :
  werr (TarZim_range env files w) = None ->
  items (TarZim_range env files w) = w ++ tar_records files.
Proof.
  revert w. induction files as [|file files IH]; intros w; simpl.
  - intros _. by rewrite app_nil_r.
  - destruct (tar_WriteHeader env w _); [done|].
    destruct (tar_Write env _ _); [done|].
    intros Hnil. rewrite (IH _ Hnil), <- !app_assoc. done.
Qed.

(** C7: when [TarZim] returns a nil error, the file holds, for each entry of
    the stream and in the stream's order, a header with the entry's path as
    name, mode 0600 and the payload length as size, followed by the entry's
    payload, and after the last entry the trailer. *)
Theorem TarZim_writes_stream_in_order env tarFile files :
  werr (TarZim env tarFile files) = None ->
  items (TarZim env tarFile files) = tar_records files ++ [tar.Trailer].
Proof.
  unfold TarZim. destruct (os_Create env tarFile); [done|].
  destruct (werr (TarZim_range env files [])) eqn:Hrange; [by rewrite Hrange|].
  destruct (tar_Close env _); [done|]. simpl. intros _.
  by rewrite (TarZim_range_items _ _ _ Hrange).
Qed.

(** On it [TarZim] returns a nil error for every stream. *)
Lemma TarZim_reliable tarFile files : werr (TarZim reliable tarFile files) = None.
Proof.
  unfold TarZim. simpl.
  assert (∀ w, werr (TarZim_range reliable files w) = None) as Hrange.
  { induction files as [|file files IH]; intros w; simpl; [done|apply IH]. }
  by rewrite Hrange.
Qed.

Lemma TarZim_writes_stream_in_order_witness :
  items (TarZim reliable "out.tar" sample_stream)
  = [tar.Hdr {| tar.Name := "A/home.html"; tar.Mode := 384; tar.Size := 13 |};
     tar.Payload (list_byte_of_string "<h1>Home</h1>");
     tar.Hdr {| tar.Name := "A/start"; tar.Mode := 384; tar.Size := 2 |};
     tar.Payload (list_byte_of_string "go");
     tar.Hdr {| tar.Name := "-/style.css"; tar.Mode := 384; tar.Size := 0 |};
     tar.Payload [];
     tar.Trailer].
Proof.
  apply (TarZim_writes_stream_in_order reliable "out.tar" sample_stream).
  vm_compute. reflexivity.
Defined.

(** ** The upload request *)

Lemma canonical_Content_Type :
  http.CanonicalMIMEHeaderKey "Content-Type" = "Content-Type".
Proof. reflexivity. Qed.

Lemma Get_Set (h : http.Header) key value : http.Get (http.Set_ h key value) key = value.
Proof. unfold http.Get, http.Set_. by rewrite lookup_insert_eq. Qed.

(** [Add] appends: the first value of a key that has one is kept. *)
Lemma Get_Add (h : http.Header) key key' :
  http.Get h key ≠ "" -> http.Get (http.Add h key' "true") key = http.Get h key.
Proof.
  unfold http.Get, http.Add. intros Hget.
  destruct (decide (http.CanonicalMIMEHeaderKey key' = http.CanonicalMIMEHeaderKey key))
    as [->|Hne].
  - rewrite lookup_insert_eq.
    destruct (h !! http.CanonicalMIMEHeaderKey key) as [[|v vs]|]; done.
  - by rewrite lookup_insert_ne.
Qed.

Lemma Values_Add (h : http.Header) key value :
  value ∈ http.Values (http.Add h key value) key.
Proof.
  unfold http.Values, http.Add. rewrite lookup_insert_eq. simpl.
  apply elem_of_app. right. by left.
Qed.

(** C10: [Upload] issues one request, a POST to [/bytes], whose
    [Content-Type] is [application/octet-stream]; the pin header carries
    ["true"] exactly when [o.Pin] is set, and without [o.Pin] the header has
    the [Content-Type] key only. *)
Theorem Upload_request (SwarmPinHeader : string)
    (RequestWithHeader : api.Request -> api.BytesUploadResponse * option ext_error)
    (data : bytes) (o : api.UploadOptions) :
  ∃ req,
    api.issued (api.Upload SwarmPinHeader RequestWithHeader data o) = [req]
    ∧ api.method req = "POST"
    ∧ api.url req = "/bytes"
    ∧ api.body req = data
    ∧ http.Get (api.header req) "Content-Type" = "application/octet-stream"
    ∧ ("true" ∈ http.Values (api.header req) SwarmPinHeader <-> api.Pin o = true)
    ∧ (api.Pin o = false ->
       api.header req = {[ "Content-Type" := ["application/octet-stream"] ]}).
Proof.
  unfold api.Upload.
  destruct (RequestWithHeader _) as [resp err] eqn:Hcall. clear Hcall.
  eexists. split; [reflexivity|]. simpl.
  repeat split; try done.
  - destruct (api.Pin o).
    + rewrite Get_Add; rewrite Get_Set; done.
    + by rewrite Get_Set.
  - destruct (api.Pin o); [done|]. intros Hin. exfalso. revert Hin.
    unfold http.Values, http.Set_. rewrite canonical_Content_Type.
    destruct (decide ("Content-Type" = http.CanonicalMIMEHeaderKey SwarmPinHeader))
      as [<-|Hne].
    + rewrite lookup_insert_eq. simpl. intros Hin.
      apply list_elem_of_singleton in Hin. discriminate Hin.
    + rewrite lookup_insert_ne, lookup_empty by done. simpl.
      by intros ?%elem_of_nil.
  - intros ->. apply Values_Add.
  - intros ->. unfold http.Set_. rewrite canonical_Content_Type.
    apply insert_empty.
Qed.

Lemma Upload_request_witness :
  ∃ req,
    api.issued (api.Upload "Swarm-Pin" sample_client
                  (list_byte_of_string "payload") {| api.Pin := true |}) = [req]
    ∧ api.method req = "POST"
    ∧ api.url req = "/bytes"
    ∧ api.body req = list_byte_of_string "payload"
    ∧ http.Get (api.header req) "Content-Type" = "application/octet-stream"
    ∧ ("true" ∈ http.Values (api.header req) "Swarm-Pin" <-> true = true)
    ∧ (true = false ->
       api.header req = {[ "Content-Type" := ["application/octet-stream"] ]}).
Proof.
  exact (Upload_request "Swarm-Pin" sample_client
           (list_byte_of_string "payload") {| api.Pin := true |}).
Defined.


(** * Further properties *)

(** ** The metadata index *)

Lemma New_store reader zimPath (st0 st1 : Store) idx :
  New reader zimPath st0 = (inr idx, st1) ->
  entries idx = length st0 ∧ st1 = st0 ++ [∅].
Proof.
  unfold New, make_map. destruct (reader zimPath) as [z|e]; [|done].
  by intros [= <- <-].
Qed.

Lemma deref_add_all_ne idx calls (st : Store) l :
  l ≠ entries idx -> deref (add_all idx calls st) l = deref st l.
Proof.
  intros Hne. revert st. induction calls as [|c calls IH]; intros st; [done|].
  simpl. rewrite IH. by apply deref_AddEntry_ne.
Qed.

(** X1: two indexers made by [New] never share a map: whatever is added to
    the first after the second was made leaves the second's entries empty,
    and whatever is added to the second leaves the first's entries as they
    were. *)
Theorem indexers_do_not_share_entries reader1 reader2 zimPath1 zimPath2
    (st0 st1 st2 : Store) idx1 idx2 calls1 calls :
  New reader1 zimPath1 st0 = (inr idx1, st1) ->
  New reader2 zimPath2 (add_all idx1 calls1 st1) = (inr idx2, st2) ->
  deref (add_all idx1 calls st2) (Entries idx2) = ∅
  ∧ deref (add_all idx2 calls st2) (Entries idx1)
    = deref (add_all idx1 calls1 st1) (Entries idx1).
Proof.
  intros H1 H2. apply New_store in H1 as [Hl1 ->].
  apply New_store in H2 as [Hl2 ->]. unfold Entries.
  rewrite add_all_length, length_app in Hl2. simpl in Hl2.
  assert (entries idx1 ≠ entries idx2) as Hne by lia.
  rewrite !deref_add_all_ne by done. unfold deref. split.
  - rewrite lookup_app_r by (rewrite add_all_length, length_app; simpl; lia).
    rewrite add_all_length, length_app, Hl2, Nat.sub_diag. done.
  - rewrite lookup_app_l; [done|].
    rewrite add_all_length, length_app. simpl. lia.
Qed.

Lemma indexers_do_not_share_entries_witness :
  deref (add_all idx0 calls0 (add_all idx0 calls0 [∅] ++ [∅])) (Entries sample_idx1) = ∅
  ∧ deref (add_all sample_idx1 calls0 (add_all idx0 calls0 [∅] ++ [∅])) (Entries idx0)
    = deref (add_all idx0 calls0 [∅]) (Entries idx0).
Proof.
  apply (indexers_do_not_share_entries open_empty open_sample
           "site.zim" "/data/site.zim" [] [∅] _ idx0 sample_idx1 calls0 calls0).
  - reflexivity.
  - reflexivity.
Defined.

(** X2: a second [AddEntry] for the same path replaces the first: the store
    is the one the second call alone gives. *)
Theorem AddEntry_overwrites idx p metadata1 metadata2 (st : Store) :
  AddEntry idx p metadata2 (AddEntry idx p metadata1 st)
  = AddEntry idx p metadata2 st.
Proof.
  unfold AddEntry. rewrite list_alter_alter_eq.
  apply list_alter_ext; [|done]. intros m _. simpl. apply insert_insert_eq.
Qed.

(** X3: [AddEntry] calls for different paths commute. *)
Theorem AddEntry_commutes idx p1 p2 metadata1 metadata2 (st : Store) :
  p1 ≠ p2 ->
  AddEntry idx p1 metadata1 (AddEntry idx p2 metadata2 st)
  = AddEntry idx p2 metadata2 (AddEntry idx p1 metadata1 st).
Proof.
  intros Hne. unfold AddEntry. rewrite !list_alter_alter_eq.
  apply list_alter_ext; [|done]. intros m _. simpl. by apply insert_insert_ne.
Qed.

Lemma AddEntry_commutes_witness :
  AddEntry idx0 "A/home.html" (md "Home" "text/html")
    (AddEntry idx0 "A/about.html" (md "About" "text/html") [∅])
  = AddEntry idx0 "A/about.html" (md "About" "text/html")
      (AddEntry idx0 "A/home.html" (md "Home" "text/html") [∅]).
Proof.
  apply (AddEntry_commutes idx0 "A/home.html" "A/about.html").
  intros H. discriminate H.
Defined.

Lemma last_supplied_is_Some calls p :
  is_Some (last_supplied calls p) <-> p ∈ calls.*1.
Proof.
  induction calls as [|c calls IH]; simpl.
  - split; [by intros [? ?]|by intros ?%elem_of_nil].
  - rewrite elem_of_cons, <- IH.
    destruct (last_supplied calls p) as [m|].
    { split; [intros _; right|]; by eexists. }
    destruct (decide (c.1 = p)) as [->|Hne].
    + split; [intros _; by left|intros _; by eexists].
    + split; [by intros [? ?]|]. intros [?|[? ?]]; done.
Qed.

(** The keys after a sequence of calls: those the map had and the paths
    added. *)
Lemma dom_deref_add_all idx calls (st : Store) :
  entries idx < length st ->
  dom (deref (add_all idx calls st) (entries idx))
  = dom (deref st (entries idx)) ∪ list_to_set calls.*1.
Proof.
  intros Hlt. apply set_eq. intros p.
  rewrite elem_of_union, !elem_of_dom, elem_of_list_to_set,
    <- last_supplied_is_Some, deref_add_all by done.
  destruct (last_supplied calls p) as [m|].
  - split; [by right|by eexists].
  - split; [by left|]. intros [?|[? ?]]; done.
Qed.

(** X4: from the empty map made by [New], the keys of the index after a
    sequence of [AddEntry] calls are exactly the paths of the calls. *)
Theorem entries_keys_are_added_paths reader zimPath (st0 st1 : Store) idx calls :
  New reader zimPath st0 = (inr idx, st1) ->
  dom (deref (add_all idx calls st1) (entries idx)) = list_to_set calls.*1.
Proof.
  intros HNew. apply New_allocates in HNew as (Hlt & Hempty & _).
  rewrite dom_deref_add_all, Hempty, dom_empty_L by done. apply (left_id_L ∅ (∪)).
Qed.

Lemma entries_keys_are_added_paths_witness :
  dom (deref (add_all idx0 calls0 [∅]) (entries idx0))
  = list_to_set calls0.*1.
Proof.
  apply (entries_keys_are_added_paths open_empty "site.zim" [] [∅] idx0 calls0).
  reflexivity.
Defined.

(** ** The producer *)

Lemma inserts_app (tr1 tr2 : list Event) :
  inserts (tr1 ++ tr2) = inserts tr1 ++ inserts tr2.
Proof. unfold inserts. apply omap_app. Qed.

Lemma add_all_app idx calls1 calls2 (st : Store) :
  add_all idx (calls1 ++ calls2) st = add_all idx calls2 (add_all idx calls1 st).
Proof. unfold add_all. apply foldl_app. Qed.

Lemma inserts_emissions (l : list (zim.Article * bytes)) :
  (inserts (flat_map (fun ad => emission ad.1 ad.2) l)).*1
  = path <$> stream (flat_map (fun ad => emission ad.1 ad.2) l).
Proof.
  induction l as [|[a d] l IH]; [done|].
  change (flat_map (fun ad => emission ad.1 ad.2) ((a, d) :: l))
    with (emission a d ++ flat_map (fun ad => emission ad.1 ad.2) l).
  rewrite inserts_app, stream_app, !fmap_app, IH. done.
Qed.

Lemma last_supplied_elem calls p m :
  last_supplied calls p = Some m -> (p, m) ∈ calls.
Proof.
  induction calls as [|[q m'] calls IH]; simpl; [done|].
  destruct (last_supplied calls p) as [m''|].
  - intros [= <-]. right. by apply IH.
  - destruct (decide (q = p)) as [->|]; [|done]. intros [= <-]. left.
Qed.

Lemma elem_of_inserts (tr : list Event) p metadata :
  (p, metadata) ∈ inserts tr <-> EvAddEntry p metadata ∈ tr.
Proof.
  unfold inserts. rewrite list_elem_of_omap. split.
  - intros ([a|q m] & Hin & Heq); [done|]. by injection Heq as -> ->.
  - intros Hin. by exists (EvAddEntry p metadata).
Qed.

Section ProducerRuns.

Variable ExecuteTemplate :
  string -> gmap string string -> bytes * option ext_error.

(** What one call of the callback does, in full: nothing, or the emission of
    a decoded entry that is neither deleted nor outside the recognized
    namespaces, with its payload and the insertion into the index. *)
Lemma callback_cases idx i (st : Store) :
  let s := callback ExecuteTemplate idx i st in
  (out s = [] ∧ heap s = st)
  ∨ ∃ a d, zim.ArticleAtURLIdx (Z_ idx) i = Ok a
           ∧ is_deleted a = false ∧ recognized (zim.Namespace a) = true
           ∧ payload_from ExecuteTemplate (Z_ idx) a d
           ∧ flow s = Next tt
           ∧ out s = emission a d
           ∧ heap s = AddEntry idx (zim.FullURL a)
                        {[ "Title" := zim.Title a; "MimeType" := zim.MimeType a ]} st.
Proof.
  unfold callback, bind, try_, payload_from, is_deleted, is_redirect; simpl.
  destruct (zim.ArticleAtURLIdx (Z_ idx) i) as [a|e] eqn:Ea; simpl; [|by left].
  destruct (zim.EntryType a =? zim.DeletedEntry)%Z eqn:Edel; simpl; [by left|].
  destruct (recognized (zim.Namespace a)) eqn:Ens; simpl; [|by left].
  destruct (zim.EntryType a =? zim.RedirectEntry)%Z eqn:Ered; simpl.
  - destruct (zim.RedirectIndex a) as [ridx|] eqn:Eridx; simpl; [|by left].
    destruct (zim.ArticleAtURLIdx (Z_ idx) ridx) as [ra|] eqn:Era; simpl; [|by left].
    destruct (buildRedirectPage _ _) as [page|e] eqn:Epage; simpl; [|by left].
    right. exists a, page. rewrite Ered. repeat split; try done.
    by exists ridx, ra.
  - destruct (zim.Data a) as [d|] eqn:Ed; simpl; [|by left].
    right. exists a, d. rewrite Ered. done.
Qed.

(** [log.Fatalf] is reached for a redirect entry of a recognized namespace
    whose target resolved and whose page failed to build, and only so. *)
Lemma callback_fatal_redirect idx i (st : Store) msg :
  flow (callback ExecuteTemplate idx i st) = Fatalf msg ->
  ∃ a ridx ra e,
    zim.ArticleAtURLIdx (Z_ idx) i = Ok a
    ∧ is_redirect a = true ∧ recognized (zim.Namespace a) = true
    ∧ zim.RedirectIndex a = Ok ridx
    ∧ zim.ArticleAtURLIdx (Z_ idx) ridx = Ok ra
    ∧ buildRedirectPage ExecuteTemplate (path.Base (zim.FullURL ra)) = Err e
    ∧ msg = "error building redirect page: " +:+ e.
Proof.
  unfold callback, bind, try_, is_redirect; simpl.
  destruct (zim.ArticleAtURLIdx (Z_ idx) i) as [a|e] eqn:Ea; simpl; [|done].
  destruct (zim.EntryType a =? zim.DeletedEntry)%Z; simpl; [done|].
  destruct (recognized (zim.Namespace a)) eqn:Ens; simpl; [|done].
  destruct (zim.EntryType a =? zim.RedirectEntry)%Z eqn:Ered; simpl.
  - destruct (zim.RedirectIndex a) as [ridx|] eqn:Eridx; simpl; [|done].
    destruct (zim.ArticleAtURLIdx (Z_ idx) ridx) as [ra|] eqn:Era; simpl; [|done].
    destruct (buildRedirectPage _ _) as [page|e] eqn:Epage; simpl; [done|].
    intros [= <-]. by exists a, ridx, ra, e.
  - destruct (zim.Data a); done.
Qed.

(** An entry that is not a redirect, in a recognized namespace, with its data
    read, is sent with that data. *)
Lemma callback_normal idx i (st : Store) a d :
  zim.ArticleAtURLIdx (Z_ idx) i = Ok a ->
  is_deleted a = false ->
  is_redirect a = false ->
  recognized (zim.Namespace a) = true ->
  zim.Data a = Ok d ->
  flow (callback ExecuteTemplate idx i st) = Next tt
  ∧ out (callback ExecuteTemplate idx i st) = emission a d.
Proof.
  unfold is_deleted, is_redirect. intros Ha Hdel Hred Hns Hd.
  unfold callback, bind, try_; simpl.
  rewrite Ha; simpl. rewrite Hdel, Hns, Hred; simpl. rewrite Hd. done.
Qed.

(** The store after a run is the store before it with the trace's
    insertions made. *)
Lemma iterator_final ptrs idx (st : Store) :
  final (ListTitlesPtrIterator ptrs (callback ExecuteTemplate idx) st)
  = add_all idx
      (inserts (trace (ListTitlesPtrIterator ptrs (callback ExecuteTemplate idx) st)))
      st.
Proof.
  revert st. induction ptrs as [|i ptrs IH]; intros st; [done|].
  assert (heap (callback ExecuteTemplate idx i st)
          = add_all idx (inserts (out (callback ExecuteTemplate idx i st))) st)
    as Hheap.
  { destruct (callback_cases idx i st)
      as [[-> ->]|(a & d & _ & _ & _ & _ & _ & -> & ->)]; done. }
  simpl. destruct (flow (callback ExecuteTemplate idx i st)); simpl;
    rewrite ?inserts_app, ?add_all_app, ?IH, <- ?Hheap; done.
Qed.

(** Every emission of a run is that of a visited entry, decoded, neither
    deleted nor outside the recognized namespaces, with its payload. *)
Lemma iterator_trace_sound ptrs idx (st : Store) :
  ∃ l : list (zim.Article * bytes),
    trace (ListTitlesPtrIterator ptrs (callback ExecuteTemplate idx) st)
    = flat_map (fun ad => emission ad.1 ad.2) l
    ∧ ∀ a d, (a, d) ∈ l ->
        ∃ i, i ∈ ptrs ∧ zim.ArticleAtURLIdx (Z_ idx) i = Ok a
             ∧ is_deleted a = false ∧ recognized (zim.Namespace a) = true
             ∧ payload_from ExecuteTemplate (Z_ idx) a d.
Proof.
  revert st. induction ptrs as [|i ptrs IH]; intros st.
  { exists []. split; [done|]. by intros a d ?%elem_of_nil. }
  destruct (iterator_cons ExecuteTemplate i ptrs idx st)
    as [(msg & Hf & _ & ->)|(_ & _ & ->)].
  - rewrite (callback_fatal_out _ _ _ _ _ Hf). exists []. split; [done|].
    by intros a d ?%elem_of_nil.
  - destruct (IH (heap (callback ExecuteTemplate idx i st))) as (l & -> & Hl).
    destruct (callback_cases idx i st)
      as [[-> _]|(a & d & Ha & Hdel & Hns & Hpay & _ & -> & _)].
    + exists l. split; [done|]. intros a d Had.
      destruct (Hl a d Had) as (j & ? & ?). exists j. split; [by right|done].
    + exists ((a, d) :: l). split; [done|]. intros a' d' Had.
      apply elem_of_cons in Had as [[= -> ->]|Had].
      * exists i. split; [by left|done].
      * destruct (Hl a' d' Had) as (j & ? & ?). exists j. split; [by right|done].
Qed.

End ProducerRuns.

Lemma visited_from_length z ptrs :
  (length (visited_from z ptrs) <= length ptrs)%nat.
Proof.
  unfold visited_from. induction ptrs as [|i ptrs IH]; simpl; [done|].
  destruct (zim.ArticleAtURLIdx z i); simpl.
  - apply le_n_S, IH.
  - apply Nat.le_le_succ_r, IH.
Qed.

Section ProducerFacts.

Variable ExecuteTemplate :
  string -> gmap string string -> bytes * option ext_error.

(** X5: after a run, completed or aborted, the keys of the index are those
    it had before and the paths of the entries sent. *)
Theorem ParseZIM_index_keys idx (st : Store) :
  entries idx < length st ->
  dom (deref (final (ParseZIM ExecuteTemplate idx st)) (entries idx))
  = dom (deref st (entries idx))
    ∪ list_to_set (path <$> stream (trace (ParseZIM ExecuteTemplate idx st))).
Proof.
  intros Hlt. unfold ParseZIM. rewrite iterator_final.
  rewrite dom_deref_add_all by done.
  destruct (iterator_trace_emissions ExecuteTemplate
              (zim.TitlePtrs (Z_ idx)) idx st) as [l ->].
  by rewrite inserts_emissions.
Qed.

(** X6: an index entry a run leaves under the key [p] is the one the index
    had before, or has the path [p], the title and the MIME type of a visited
    entry whose full URL is [p]. *)
Theorem ParseZIM_index_metadata idx (st : Store) p e :
  entries idx < length st ->
  deref (final (ParseZIM ExecuteTemplate idx st)) (entries idx) !! p = Some e ->
  deref st (entries idx) !! p = Some e
  ∨ ∃ i a, i ∈ zim.TitlePtrs (Z_ idx)
           ∧ zim.ArticleAtURLIdx (Z_ idx) i = Ok a
           ∧ zim.FullURL a = p
           ∧ e = {| Path := p;
                    Metadata := {[ "Title" := zim.Title a;
                                   "MimeType" := zim.MimeType a ]} |}.
Proof.
  intros Hlt. unfold ParseZIM. rewrite iterator_final, deref_add_all by done.
  destruct (last_supplied _ p) as [m|] eqn:Hlast; [|by left].
  intros [= <-]. right.
  apply last_supplied_elem, elem_of_inserts in Hlast.
  destruct (iterator_trace_sound ExecuteTemplate
              (zim.TitlePtrs (Z_ idx)) idx st) as (l & Htr & Hl).
  rewrite Htr in Hlast.
  apply AddEntry_in_emissions in Hlast as (a & Ha & -> & ->).
  apply list_elem_of_fmap in Ha as ([a' d] & -> & Had).
  destruct (Hl a' d Had) as (i & Hi & Hidx & _). by exists i, a'.
Qed.

(** X7: every entry sent comes from a visited index that decodes to an entry
    neither deleted nor outside the five recognized namespaces; it is sent
    under that entry's full URL, and its payload is the entry's data or, for
    a redirect, the redirect page for the base name of the resolved
    target. *)
Theorem ParseZIM_sends_only_kept_entries idx (st : Store) art :
  art ∈ stream (trace (ParseZIM ExecuteTemplate idx st)) ->
  ∃ i a, i ∈ zim.TitlePtrs (Z_ idx)
         ∧ zim.ArticleAtURLIdx (Z_ idx) i = Ok a
         ∧ is_deleted a = false
         ∧ recognized (zim.Namespace a) = true
         ∧ path art = zim.FullURL a
         ∧ payload_from ExecuteTemplate (Z_ idx) a (data art).
Proof.
  unfold ParseZIM.
  destruct (iterator_trace_sound ExecuteTemplate
              (zim.TitlePtrs (Z_ idx)) idx st) as (l & -> & Hl).
  rewrite stream_emissions.
  intros ([a d] & -> & Had)%list_elem_of_fmap. simpl.
  destruct (Hl a d Had) as (i & ? & ? & ? & ? & ?). by exists i, a.
Qed.

(** X8: the entries are sent in the order the archive is visited, at most
    one per index: the paths sent are a subsequence of the full URLs of the
    visited entries, and no more than there are title pointers. *)
Theorem ParseZIM_stream_follows_archive_order idx (st : Store) :
  path <$> stream (trace (ParseZIM ExecuteTemplate idx st))
    `sublist_of` zim.FullURL <$> visited (Z_ idx)
  ∧ (length (stream (trace (ParseZIM ExecuteTemplate idx st)))
     <= length (zim.TitlePtrs (Z_ idx)))%nat.
Proof.
  assert (path <$> stream (trace (ParseZIM ExecuteTemplate idx st))
            `sublist_of` zim.FullURL <$> visited (Z_ idx)) as Hsub.
  { unfold ParseZIM, visited. revert st.
    induction (zim.TitlePtrs (Z_ idx)) as [|i ptrs IH]; intros st; [done|].
    destruct (iterator_cons ExecuteTemplate i ptrs idx st)
      as [(msg & Hf & _ & ->)|(_ & _ & ->)].
    { rewrite (callback_fatal_out _ _ _ _ _ Hf). apply sublist_nil_l. }
    rewrite stream_app, fmap_app.
    specialize (IH (heap (callback ExecuteTemplate idx i st))).
    destruct (callback_out ExecuteTemplate idx i st)
      as [->|(a & d & Ha & _ & _ & ->)]; unfold visited_from in *; simpl.
    - destruct (zim.ArticleAtURLIdx (Z_ idx) i); simpl; [|done].
      by apply sublist_cons.
    - rewrite Ha. simpl. by apply sublist_skip. }
  split; [done|].
  apply sublist_length in Hsub. rewrite !length_fmap in Hsub.
  pose proof (visited_from_length (Z_ idx) (zim.TitlePtrs (Z_ idx))).
  unfold visited in Hsub. lia.
Qed.

(** X9: in a run that reaches the end of the archive, an entry that is
    neither deleted nor a redirect, in a recognized namespace, whose data is
    read, is sent under its full URL with exactly that data. *)
Theorem ParseZIM_normal_entry_payload idx (st : Store) i a d :
  i ∈ zim.TitlePtrs (Z_ idx) ->
  zim.ArticleAtURLIdx (Z_ idx) i = Ok a ->
  is_deleted a = false ->
  is_redirect a = false ->
  recognized (zim.Namespace a) = true ->
  zim.Data a = Ok d ->
  outcome (ParseZIM ExecuteTemplate idx st) = Completed ->
  {| path := zim.FullURL a; data := d |}
    ∈ stream (trace (ParseZIM ExecuteTemplate idx st)).
Proof.
  intros Hi Ha Hdel Hred Hns Hd. unfold ParseZIM.
  revert st. induction (zim.TitlePtrs (Z_ idx)) as [|j ptrs IH]; intros st Hdone.
  { by apply elem_of_nil in Hi. }
  destruct (iterator_cons ExecuteTemplate j ptrs idx st)
    as [(msg & _ & Hab & _)|(_ & Hout & ->)].
  { rewrite Hab in Hdone. discriminate Hdone. }
  rewrite stream_app, elem_of_app.
  destruct (decide (j = i)) as [->|Hne].
  - left. destruct (callback_normal ExecuteTemplate idx i st a d) as [_ ->]; try done.
    simpl. left.
  - right. apply IH.
    + apply elem_of_cons in Hi as [->|Hi]; done.
    + by rewrite <- Hout.
Qed.

(** What ends a run before the end of the archive. *)
Lemma iterator_abort_cause ptrs idx (st : Store) msg :
  outcome (ListTitlesPtrIterator ptrs (callback ExecuteTemplate idx) st)
  = Aborted msg ->
  ∃ i a ridx ra e,
    i ∈ ptrs
    ∧ zim.ArticleAtURLIdx (Z_ idx) i = Ok a
    ∧ is_redirect a = true ∧ recognized (zim.Namespace a) = true
    ∧ zim.RedirectIndex a = Ok ridx
    ∧ zim.ArticleAtURLIdx (Z_ idx) ridx = Ok ra
    ∧ buildRedirectPage ExecuteTemplate (path.Base (zim.FullURL ra)) = Err e
    ∧ msg = "error building redirect page: " +:+ e.
Proof.
  revert st. induction ptrs as [|i ptrs IH]; intros st; [done|].
  destruct (iterator_cons ExecuteTemplate i ptrs idx st)
    as [(msg' & Hf & -> & _)|(_ & -> & _)].
  - intros [= ->].
    apply callback_fatal_redirect in Hf as (a & ridx & ra & e & ?).
    exists i, a, ridx, ra, e. split; [by left|done].
  - intros (j & a & ridx & ra & e & ? & ?)%IH.
    exists j, a, ridx, ra, e. split; [by right|done].
Qed.

(** X10: a run is aborted only by [log.Fatalf] on a redirect entry of a
    recognized namespace whose target resolved and whose redirect page
    failed to render; the message carries the rendering error. *)
Theorem ParseZIM_abort_cause idx (st : Store) msg :
  outcome (ParseZIM ExecuteTemplate idx st) = Aborted msg ->
  ∃ i a ridx ra e,
    i ∈ zim.TitlePtrs (Z_ idx)
    ∧ zim.ArticleAtURLIdx (Z_ idx) i = Ok a
    ∧ is_redirect a = true ∧ recognized (zim.Namespace a) = true
    ∧ zim.RedirectIndex a = Ok ridx
    ∧ zim.ArticleAtURLIdx (Z_ idx) ridx = Ok ra
    ∧ buildRedirectPage ExecuteTemplate (path.Base (zim.FullURL ra)) = Err e
    ∧ msg = "error building redirect page: " +:+ e.
Proof. apply iterator_abort_cause. Qed.

(** X11: on an archive whose visited entries include no redirect, every run
    reaches the end of the archive, whatever the templates, the payloads and
    the decoder errors. *)
Theorem ParseZIM_without_redirects_completes idx (st : Store) :
  forallb (fun a => negb (is_redirect a)) (visited (Z_ idx)) = true ->
  outcome (ParseZIM ExecuteTemplate idx st) = Completed.
Proof.
  intros Hno. unfold ParseZIM.
  destruct (outcome _) as [|msg] eqn:Hout; [done|]. exfalso.
  apply iterator_abort_cause in Hout as (i & a & ? & ? & ? & Hi & Ha & Hred & _).
  rewrite forallb_forall in Hno. specialize (Hno a).
  rewrite Hred in Hno. apply Is_true_true in Hno; [done|].
  apply list_elem_of_In. unfold visited, visited_from.
  apply list_elem_of_omap. exists i. by rewrite Ha.
Qed.


End ProducerFacts.

Lemma ParseZIM_index_keys_witness :
  dom (deref (final (ParseZIM sample_templates sample_idx [∅])) (entries sample_idx))
  = dom (deref [∅] (entries sample_idx))
    ∪ list_to_set (path <$> stream (trace (ParseZIM sample_templates sample_idx [∅]))).
Proof.
  apply (ParseZIM_index_keys sample_templates sample_idx [∅]). simpl. lia.
Defined.

Lemma ParseZIM_index_metadata_witness :
  deref [∅] (entries sample_idx) !! "A/home.html"
  = Some {| Path := "A/home.html"; Metadata := md "Home" "text/html" |}
  ∨ ∃ i a, i ∈ zim.TitlePtrs (Z_ sample_idx)
           ∧ zim.ArticleAtURLIdx (Z_ sample_idx) i = Ok a
           ∧ zim.FullURL a = "A/home.html"
           ∧ {| Path := "A/home.html"; Metadata := md "Home" "text/html" |}
             = {| Path := "A/home.html";
                  Metadata := {[ "Title" := zim.Title a;
                                 "MimeType" := zim.MimeType a ]} |}.
Proof.
  apply (ParseZIM_index_metadata sample_templates sample_idx [∅]).
  - simpl. lia.
  - vm_compute. reflexivity.
Defined.

Lemma ParseZIM_sends_only_kept_entries_witness :
  ∃ i a, i ∈ zim.TitlePtrs (Z_ sample_idx)
         ∧ zim.ArticleAtURLIdx (Z_ sample_idx) i = Ok a
         ∧ is_deleted a = false
         ∧ recognized (zim.Namespace a) = true
         ∧ "-/style.css" = zim.FullURL a
         ∧ payload_from sample_templates (Z_ sample_idx) a
             (list_byte_of_string "body{}").
Proof.
  apply (ParseZIM_sends_only_kept_entries sample_templates sample_idx [∅]
           {| path := "-/style.css"; data := list_byte_of_string "body{}" |}).
  apply (list_elem_of_lookup_2 _ 2). vm_compute. reflexivity.
Defined.

Lemma ParseZIM_normal_entry_payload_witness :
  {| path := zim.FullURL home; data := list_byte_of_string "<h1>Home</h1>" |}
    ∈ stream (trace (ParseZIM sample_templates sample_idx [∅])).
Proof.
  apply (ParseZIM_normal_entry_payload sample_templates sample_idx [∅] 0%N home).
  - apply (bool_decide_unpack _). vm_compute. reflexivity.
  - reflexivity.
  - reflexivity.
  - reflexivity.
  - reflexivity.
  - reflexivity.
  - vm_compute. reflexivity.
Defined.

Lemma ParseZIM_abort_cause_witness :
  ∃ i a ridx ra e,
    i ∈ zim.TitlePtrs (Z_ sample_idx)
    ∧ zim.ArticleAtURLIdx (Z_ sample_idx) i = Ok a
    ∧ is_redirect a = true ∧ recognized (zim.Namespace a) = true
    ∧ zim.RedirectIndex a = Ok ridx
    ∧ zim.ArticleAtURLIdx (Z_ sample_idx) ridx = Ok ra
    ∧ buildRedirectPage no_templates (path.Base (zim.FullURL ra)) = Err e
    ∧ "error building redirect page: html/template: index-redirect.html is undefined"
      = "error building redirect page: " +:+ e.
Proof.
  apply (ParseZIM_abort_cause no_templates sample_idx [∅]).
  vm_compute. reflexivity.
Defined.

Lemma ParseZIM_without_redirects_completes_witness :
  outcome (ParseZIM no_templates plain_idx [∅]) = Completed.
Proof.
  apply (ParseZIM_without_redirects_completes no_templates plain_idx [∅]).
  vm_compute. reflexivity.
Defined.


(** ** The tar writer *)

Lemma TarZim_range_prefix env files (w : list tar.Item) :
  items (TarZim_range env files w) `prefix_of` w ++ tar_records files.
Proof.
  revert w. induction files as [|file files IH]; intros w.
  - simpl. by rewrite app_nil_r.
  - change (tar_records (file :: files))
      with ([tar.Hdr {| tar.Name := path file; tar.Mode := 0x180;
                        tar.Size := Z.of_nat (length (data file)) |}]
            ++ [tar.Payload (data file)] ++ tar_records files).
    simpl TarZim_range.
    destruct (tar_WriteHeader env w _); simpl items; [by apply prefix_app_r|].
    destruct (tar_Write env _ _); simpl items.
    + rewrite (app_assoc w). by apply prefix_app_r.
    + etrans; [apply IH|]. by rewrite <- !app_assoc.
Qed.

Lemma TarZim_range_no_trailer env files (w : list tar.Item) :
  tar.Trailer ∉ w -> tar.Trailer ∉ items (TarZim_range env files w).
Proof.
  revert w. induction files as [|file files IH]; intros w Hw; simpl; [done|].
  destruct (tar_WriteHeader env w _); simpl; [done|].
  destruct (tar_Write env _ _); simpl.
  - rewrite elem_of_app, list_elem_of_singleton. by intros [?|?].
  - apply IH. rewrite !elem_of_app, !list_elem_of_singleton. by intros [[?|?]|?].
Qed.

(** X13: whatever fails, the file never holds anything but a beginning of
    the full archive: headers and payloads of the first entries of the
    stream, in stream order, each header before its payload, and the trailer
    only after all of them. *)
Theorem TarZim_items_prefix env tarFile files :
  items (TarZim env tarFile files) `prefix_of` tar_records files ++ [tar.Trailer].
Proof.
  unfold TarZim. destruct (os_Create env tarFile); simpl; [apply prefix_nil|].
  destruct (werr (TarZim_range env files [])) eqn:Hrange.
  - apply prefix_app_r, (TarZim_range_prefix env files []).
  - rewrite (TarZim_range_items _ _ _ Hrange). simpl.
    destruct (tar_Close env _); simpl; [by apply prefix_app_r|done].
Qed.

(** X14: the trailer is the last item of the file exactly when [TarZim]
    returns a nil error: a failed run leaves an archive that is not
    finalized. *)
Theorem TarZim_trailer_iff_nil env tarFile files :
  werr (TarZim env tarFile files) = None
  <-> last (items (TarZim env tarFile files)) = Some tar.Trailer.
Proof.
  unfold TarZim. destruct (os_Create env tarFile); simpl; [done|].
  pose proof (TarZim_range_no_trailer env files []) as Hno.
  assert (last (items (TarZim_range env files [])) ≠ Some tar.Trailer) as Hlast.
  { intros (l' & Hl')%last_Some. apply Hno; [by intros ?%elem_of_nil|].
    rewrite Hl', elem_of_app, list_elem_of_singleton. by right. }
  destruct (werr (TarZim_range env files [])) eqn:Hrange.
  - rewrite Hrange. done.
  - destruct (tar_Close env _); simpl; [done|]. by rewrite last_snoc.
Qed.

Lemma header_names_records files :
  header_names (tar_records files ++ [tar.Trailer]) = path <$> files.
Proof.
  unfold header_names. rewrite omap_app.
  induction files as [|file files IH]; [done|]. simpl. f_equal. apply IH.
Qed.

(** X15: the pipeline, producer into tar writer: when the run reaches the
    end of an archive whose decoder calls succeed and [TarZim] on its stream
    returns nil, the headers of the tar file name, in the order visited, the
    full URLs of the entries that are neither deleted nor outside the
    recognized namespaces. *)
Theorem ParseZIM_TarZim_names
    (ExecuteTemplate : string -> gmap string string -> bytes * option ext_error)
    idx (st : Store) env tarFile :
  accessors_succeed (Z_ idx) = true ->
  outcome (ParseZIM ExecuteTemplate idx st) = Completed ->
  werr (TarZim env tarFile (stream (trace (ParseZIM ExecuteTemplate idx st)))) = None ->
  header_names
    (items (TarZim env tarFile (stream (trace (ParseZIM ExecuteTemplate idx st)))))
  = zim.FullURL
      <$> List.filter
            (fun a => negb (is_deleted a) && recognized (zim.Namespace a))
            (visited (Z_ idx)).
Proof.
  intros Hok Hdone.
  destruct (iterator_trace_kept ExecuteTemplate _ idx st Hok Hdone)
    as (l & Htr & Hl).
  fold (ParseZIM ExecuteTemplate idx st) in Htr. fold (visited (Z_ idx)) in Hl.
  rewrite Htr, stream_emissions, <- Hl. unfold TarZim.
  destruct (os_Create env tarFile); [done|].
  destruct (werr (TarZim_range env _ [])) eqn:Hrange; [by rewrite Hrange|].
  destruct (tar_Close env _); [done|]. simpl. intros _.
  rewrite (TarZim_range_items _ _ _ Hrange). simpl.
  rewrite header_names_records. clear.
  induction l as [|[a d] l IH]; [done|]. simpl. f_equal. apply IH.
Qed.

Lemma ParseZIM_TarZim_names_witness :
  header_names
    (items (TarZim reliable "out.tar"
              (stream (trace (ParseZIM sample_templates sample_idx [∅])))))
  = zim.FullURL
      <$> List.filter
            (fun a => negb (is_deleted a) && recognized (zim.Namespace a))
            (visited (Z_ sample_idx)).
Proof.
  apply (ParseZIM_TarZim_names sample_templates sample_idx [∅] reliable "out.tar").
  - vm_compute. reflexivity.
  - vm_compute. reflexivity.
  - vm_compute. reflexivity.
Defined.

(** ** The directory writer *)

Lemma file_ops_app ops1 ops2 : file_ops (ops1 ++ ops2) = file_ops ops1 ++ file_ops ops2.
Proof. apply List.filter_app. Qed.

(** Making a missing directory adds no operation on files. *)
Lemma mkdir_if_missing_file_ops env ops dir :
  file_ops (mkdir_if_missing env ops dir).2 = file_ops ops.
Proof.
  unfold mkdir_if_missing. destruct (fs_IsNotExist env ops dir); [|done].
  destruct (fs_MkdirAll env ops dir); [done|]. simpl.
  rewrite file_ops_app. simpl. apply app_nil_r.
Qed.

Lemma extract_ops_cons outputDir file files :
  extract_ops outputDir (file :: files)
  = [OpCreate (filepath.Join [outputDir; path file])]
    ++ [OpWrite (filepath.Join [outputDir; path file]) (data file);
        OpClose (filepath.Join [outputDir; path file])]
    ++ extract_ops outputDir files.
Proof. reflexivity. Qed.

Lemma UnZim_range_prefix env outputDir files ops :
  file_ops (fs_ops (UnZim_range env outputDir files ops))
    `prefix_of` file_ops ops ++ extract_ops outputDir files.
Proof.
  revert ops. induction files as [|file files IH]; intros ops.
  - simpl. by rewrite app_nil_r.
  - rewrite extract_ops_cons. simpl UnZim_range.
    pose proof (mkdir_if_missing_file_ops env ops
                  (filepath.Dir (filepath.Join [outputDir; path file]))) as Hmk.
    destruct (mkdir_if_missing env ops _) as [[e|] ops1]; simpl in Hmk; simpl fs_ops.
    { rewrite Hmk. by apply prefix_app_r. }
    destruct (fs_Create env ops1 _); simpl fs_ops.
    { rewrite Hmk. by apply prefix_app_r. }
    destruct (fs_Write env _ _ _); simpl fs_ops.
    + rewrite file_ops_app, Hmk, (app_assoc (file_ops ops)). by apply prefix_app_r.
    + etrans; [apply IH|]. rewrite !file_ops_app, Hmk, <- !app_assoc. done.
Qed.

Lemma UnZim_range_complete env outputDir files ops :
  xerr (UnZim_range env outputDir files ops) = None ->
  file_ops (fs_ops (UnZim_range env outputDir files ops))
  = file_ops ops ++ extract_ops outputDir files.
Proof.
  revert ops. induction files as [|file files IH]; intros ops.
  - simpl. by rewrite app_nil_r.
  - rewrite extract_ops_cons. simpl UnZim_range.
    pose proof (mkdir_if_missing_file_ops env ops
                  (filepath.Dir (filepath.Join [outputDir; path file]))) as Hmk.
    destruct (mkdir_if_missing env ops _) as [[e|] ops1]; simpl in Hmk; [done|].
    destruct (fs_Create env ops1 _); [done|].
    destruct (fs_Write env _ _ _); [done|].
    intros Hnil. rewrite (IH _ Hnil), !file_ops_app, Hmk, <- !app_assoc. done.
Qed.

Lemma UnZim_writes_stream_in_order_aux env outputDir files :
  xerr (UnZim env outputDir files) = None ->
  file_ops (fs_ops (UnZim env outputDir files)) = extract_ops outputDir files.
Proof.
  unfold UnZim.
  pose proof (mkdir_if_missing_file_ops env [] outputDir) as Hmk.
  destruct (mkdir_if_missing env [] outputDir) as [[e|] ops]; simpl in Hmk; [done|].
  intros Hnil. rewrite (UnZim_range_complete _ _ _ _ Hnil), Hmk. done.
Qed.

(** X16: when [UnZim] returns a nil error, the operations on files are, for
    each entry of the stream and in the stream's order: create the file at
    [Join(outputDir, path)], write the entry's payload to it, close it. *)
Theorem UnZim_writes_stream_in_order env outputDir files :
  xerr (UnZim env outputDir files) = None ->
  file_ops (fs_ops (UnZim env outputDir files)) = extract_ops outputDir files.
Proof. apply UnZim_writes_stream_in_order_aux. Qed.

Lemma UnZim_writes_stream_in_order_witness :
  file_ops (fs_ops (UnZim reliable_fs "out" sample_stream))
  = extract_ops "out" sample_stream.
Proof.
  apply (UnZim_writes_stream_in_order reliable_fs "out" sample_stream).
  vm_compute. reflexivity.
Defined.

(** X17: whatever fails, the operations on files are a beginning of those of
    the complete extraction: entries are written in stream order, no entry
    after the failing one is touched, and a file whose write failed is left
    created and not closed. *)
Theorem UnZim_file_ops_prefix env outputDir files :
  file_ops (fs_ops (UnZim env outputDir files))
    `prefix_of` extract_ops outputDir files.
Proof.
  unfold UnZim.
  pose proof (mkdir_if_missing_file_ops env [] outputDir) as Hmk.
  destruct (mkdir_if_missing env [] outputDir) as [[e|] ops]; simpl in Hmk.
  - simpl. rewrite Hmk. apply prefix_nil.
  - pose proof (UnZim_range_prefix env outputDir files ops) as Hpre.
    by rewrite Hmk in Hpre.
Qed.

Lemma foldl_apply_file_ops m ops :
  foldl apply_op m ops = foldl apply_op m (file_ops ops).
Proof.
  revert m. induction ops as [|op ops IH]; intros m; [done|].
  destruct op; simpl; apply IH.
Qed.

(** The files after a complete extraction over the contents [m]: a file no
    entry lands in keeps its content, the others hold the payload of the
    last entry landing in them. *)
Lemma written_extract_ops m outputDir files p :
  foldl apply_op m (extract_ops outputDir files) !! p
  = match last (landing_in outputDir p files) with
    | Some file => Some (data file)
    | None => m !! p
    end.
Proof.
  revert m. induction files as [|file files IH]; intros m; [done|].
  rewrite extract_ops_cons, !foldl_app, IH.
  change (landing_in outputDir p (file :: files))
    with (if String.eqb (filepath.Join [outputDir; path file]) p
          then file :: landing_in outputDir p files
          else landing_in outputDir p files).
  generalize (filepath.Join [outputDir; path file]). intros filePath. simpl.
  destruct (String.eqb_spec filePath p) as [->|Hne].
  - rewrite last_cons. destruct (last (landing_in outputDir p files)); [done|].
    by rewrite lookup_alter_eq, lookup_insert_eq.
  - destruct (last (landing_in outputDir p files)); [done|].
    by rewrite lookup_alter_ne, lookup_insert_ne.
Qed.

(** X18: when [UnZim] returns a nil error, a file it wrote holds the payload
    of the last entry of the stream whose joined path is that file: an entry
    whose path collides with an earlier one replaces it. *)
Theorem UnZim_last_entry_wins env outputDir files p :
  xerr (UnZim env outputDir files) = None ->
  written (fs_ops (UnZim env outputDir files)) !! p
  = data <$> last (landing_in outputDir p files).
Proof.
  intros Hnil. unfold written.
  rewrite foldl_apply_file_ops, (UnZim_writes_stream_in_order_aux env outputDir files Hnil).
  rewrite written_extract_ops, lookup_empty.
  by destruct (last (landing_in outputDir p files)).
Qed.

Lemma UnZim_last_entry_wins_witness :
  written (fs_ops (UnZim reliable_fs "out" colliding_stream)) !! "out/A/home.html"
  = data <$> last (landing_in "out" "out/A/home.html" colliding_stream).
Proof.
  apply (UnZim_last_entry_wins reliable_fs "out" colliding_stream).
  vm_compute. reflexivity.
Defined.

(** On the colliding stream the file holds the later payload. *)
Example colliding_stream_written :
  written (fs_ops (UnZim reliable_fs "out" colliding_stream)) !! "out/A/home.html"
  = Some (list_byte_of_string "new").
Proof. vm_compute. reflexivity. Qed.

(** ** The landing page *)

Section LandingPageFacts.

Variable ExecuteTemplate :
  string -> gmap string tmpl_value -> bytes * option ext_error.
Variable AppendTarData : string -> BufferFile -> option ext_error.

(** The single template execution of the builder, once the decoder has
    answered. *)
Lemma MakeIndexSearchPage_executed idx tarFile (st : Store) mainPage :
  zim.MainPage (Z_ idx) = Ok mainPage ->
  ∃ data,
    executed (MakeIndexSearchPage ExecuteTemplate AppendTarData idx tarFile st)
    = [("index-search.html", data)]
    ∧ data !! "Articles" = Some (VArticles (deref st (entries idx)))
    ∧ data !! "HasMainPage"
      = Some (VBool (negb (String.eqb (from_option zim.FullURL "" mainPage) "")))
    ∧ data !! "MainURL" = Some (VString (from_option zim.FullURL "" mainPage)).
Proof.
  intros Hmain. unfold MakeIndexSearchPage. rewrite Hmain.
  destruct (ExecuteTemplate _ _) as [buf [e|]]; simpl; eexists;
    (split; [reflexivity|]); destruct mainPage; simpl;
    rewrite ?lookup_insert_eq, ?(lookup_insert_ne _ _ _ _), ?lookup_insert_eq by done;
    done.
Qed.

(** X19: on an archive without a main page the two index builders differ:
    [MakeRedirectIndexPage] fails with its own error and appends nothing,
    [MakeIndexSearchPage] executes its template and never returns an error
    of its own. *)
Theorem no_main_page_is_an_error_for_the_redirect_page_only idx tarFile (st : Store) :
  zim.MainPage (Z_ idx) = Ok None ->
  err (MakeRedirectIndexPage (on_strings ExecuteTemplate) AppendTarData idx tarFile)
  = Some (errors_New "no index found in the ZIM")
  ∧ append_calls
      (MakeRedirectIndexPage (on_strings ExecuteTemplate) AppendTarData idx tarFile)
    = []
  ∧ length (executed (MakeIndexSearchPage ExecuteTemplate AppendTarData idx tarFile st))
    = 1
  ∧ ∀ msg, perr (MakeIndexSearchPage ExecuteTemplate AppendTarData idx tarFile st)
           ≠ Some (errors_New msg).
Proof.
  intros Hmain. unfold MakeRedirectIndexPage, MakeIndexSearchPage.
  rewrite Hmain. split; [done|]. split; [done|]. split.
  - destruct (ExecuteTemplate _ _) as [buf [e|]]; done.
  - intros msg. destruct (ExecuteTemplate _ _) as [buf [e|]]; simpl; [done|].
    destruct (AppendTarData _ _); done.
Qed.

(** X20: the template of the landing page is told that there is a main page
    exactly when the decoder returns one whose full URL is not empty, and is
    given that URL, or the empty string, as [MainURL]. *)
Theorem landing_page_HasMainPage idx tarFile (st : Store) mainPage :
  zim.MainPage (Z_ idx) = Ok mainPage ->
  ∃ data,
    executed (MakeIndexSearchPage ExecuteTemplate AppendTarData idx tarFile st)
    = [("index-search.html", data)]
    ∧ (data !! "HasMainPage" = Some (VBool true)
       <-> ∃ page, mainPage = Some page ∧ zim.FullURL page ≠ "")
    ∧ data !! "MainURL" = Some (VString (from_option zim.FullURL "" mainPage)).
Proof.
  intros Hmain.
  destruct (MakeIndexSearchPage_executed idx tarFile st mainPage Hmain)
    as (data & Hex & _ & Hhas & Hurl).
  exists data. split; [done|]. split; [|done]. rewrite Hhas.
  destruct mainPage as [page|]; simpl.
  - destruct (String.eqb_spec (zim.FullURL page) "") as [Heq|Hne]; simpl.
    + split; [done|]. by intros (page' & [= <-] & ?).
    + split; [|done]. intros _. by exists page.
  - split; [done|]. by intros (page & ? & _).
Qed.

(** X21: producer into landing page: on an indexer made by [New], the
    articles handed to the landing-page template after a run, completed or
    aborted, are keyed by exactly the paths of the entries the run sent. *)
Theorem landing_page_lists_sent_entries
    (templates : string -> gmap string string -> bytes * option ext_error)
    reader zimPath (st0 st1 : Store) idx tarFile :
  New reader zimPath st0 = (inr idx, st1) ->
  is_ok (zim.MainPage (Z_ idx)) = true ->
  ∃ data m,
    executed (MakeIndexSearchPage ExecuteTemplate AppendTarData idx tarFile
                (final (ParseZIM templates idx st1)))
    = [("index-search.html", data)]
    ∧ data !! "Articles" = Some (VArticles m)
    ∧ dom m = list_to_set (path <$> stream (trace (ParseZIM templates idx st1))).
Proof.
  intros HNew Hmain. apply New_allocates in HNew as (Hlt & Hempty & _).
  destruct (zim.MainPage (Z_ idx)) as [mainPage|] eqn:Hmp; [|done].
  destruct (MakeIndexSearchPage_executed idx tarFile
              (final (ParseZIM templates idx st1)) mainPage Hmp)
    as (data & Hex & Hart & _).
  exists data, (deref (final (ParseZIM templates idx st1)) (entries idx)).
  split; [done|]. split; [done|].
  unfold ParseZIM. rewrite iterator_final, dom_deref_add_all, Hempty, dom_empty_L by done.
  destruct (iterator_trace_emissions templates (zim.TitlePtrs (Z_ idx)) idx st1)
    as [l ->].
  rewrite inserts_emissions. apply (left_id_L ∅ (∪)).
Qed.

End LandingPageFacts.

Lemma no_main_page_is_an_error_for_the_redirect_page_only_witness :
  err (MakeRedirectIndexPage (on_strings sample_engine) always_appends idx0 "out.tar")
  = Some (errors_New "no index found in the ZIM")
  ∧ append_calls
      (MakeRedirectIndexPage (on_strings sample_engine) always_appends idx0 "out.tar")
    = []
  ∧ length (executed (MakeIndexSearchPage sample_engine always_appends idx0 "out.tar" [∅]))
    = 1
  ∧ ∀ msg, perr (MakeIndexSearchPage sample_engine always_appends idx0 "out.tar" [∅])
           ≠ Some (errors_New msg).
Proof.
  apply (no_main_page_is_an_error_for_the_redirect_page_only
           sample_engine always_appends idx0 "out.tar" [∅]).
  reflexivity.
Defined.

Lemma landing_page_HasMainPage_witness :
  ∃ data,
    executed (MakeIndexSearchPage sample_engine always_appends sample_idx "out.tar" [∅])
    = [("index-search.html", data)]
    ∧ (data !! "HasMainPage" = Some (VBool true)
       <-> ∃ page, Some home = Some page ∧ zim.FullURL page ≠ "")
    ∧ data !! "MainURL" = Some (VString (from_option zim.FullURL "" (Some home))).
Proof.
  apply (landing_page_HasMainPage sample_engine always_appends sample_idx
           "out.tar" [∅] (Some home)).
  reflexivity.
Defined.

Lemma landing_page_lists_sent_entries_witness :
  ∃ data m,
    executed (MakeIndexSearchPage sample_engine always_appends sample_idx "out.tar"
                (final (ParseZIM sample_templates sample_idx [∅])))
    = [("index-search.html", data)]
    ∧ data !! "Articles" = Some (VArticles m)
    ∧ dom m
      = list_to_set (path <$> stream (trace (ParseZIM sample_templates sample_idx [∅]))).
Proof.
  apply (landing_page_lists_sent_entries sample_engine always_appends
           sample_templates open_sample "/data/site.zim" [] [∅] sample_idx "out.tar").
  - reflexivity.
  - reflexivity.
Defined.

(** ** The download request *)



(** ** Directories made by the directory writer *)





(** ** The upload header *)

(** X24: when the pin header's canonical name is not [Content-Type] and
    [o.Pin] is set, the request header has exactly two keys, each with a
    single value: [application/octet-stream] and ["true"]. *)
Theorem Upload_pinned_header (SwarmPinHeader : string)
    (RequestWithHeader : api.Request -> api.BytesUploadResponse * option ext_error)
    (data : bytes) (o : api.UploadOptions) :
  http.CanonicalMIMEHeaderKey SwarmPinHeader ≠ "Content-Type" ->
  api.Pin o = true ->
  ∃ req,
    api.issued (api.Upload SwarmPinHeader RequestWithHeader data o) = [req]
    ∧ dom (api.header req)
      = {[ "Content-Type"; http.CanonicalMIMEHeaderKey SwarmPinHeader ]}
    ∧ http.Values (api.header req) "Content-Type" = ["application/octet-stream"]
    ∧ http.Values (api.header req) SwarmPinHeader = ["true"].
Proof.
  intros Hne Hpin. unfold api.Upload. rewrite Hpin.
  destruct (RequestWithHeader _) as [resp err] eqn:Hcall. clear Hcall.
  eexists. split; [reflexivity|]. simpl.
  unfold http.Values, http.Add, http.Set_. rewrite canonical_Content_Type.
  rewrite (lookup_insert_ne _ "Content-Type") by done.
  rewrite lookup_empty. simpl. split; [|split].
  - rewrite !dom_insert_L, dom_empty_L, (right_id_L ∅ (∪)). apply (comm_L (∪)).
  - by rewrite lookup_insert_ne, lookup_insert_eq.
  - by rewrite lookup_insert_eq.
Qed.

Lemma Upload_pinned_header_witness :
  ∃ req,
    api.issued (api.Upload "swarm-pin" sample_client
                  (list_byte_of_string "payload") {| api.Pin := true |}) = [req]
    ∧ dom (api.header req)
      = {[ "Content-Type"; http.CanonicalMIMEHeaderKey "swarm-pin" ]}
    ∧ http.Values (api.header req) "Content-Type" = ["application/octet-stream"]
    ∧ http.Values (api.header req) "swarm-pin" = ["true"].
Proof.
  apply (Upload_pinned_header "swarm-pin" sample_client).
  - vm_compute. intros H. discriminate H.
  - reflexivity.
Defined.
